(** * agent-chemistry: the cleaning pipeline, the dataset builder and the
      dataset validator, embedded in Rocq

    The development follows three Python modules:
    - [data_collection/data_cleaner.py]   (class [DataCleaner]),
    - [data_processing/dataset_builder.py] (class [DatasetBuilder]),
    - [data_processing/data_validator.py]  (class [DataValidator]),
    and, of the crawlers, the function [clean_text] and the retry loop of
    [crawlers/utils.py] and [extract_job_advice] of
    [crawlers/zhihu_crawler.py].

    Python strings are sequences of Unicode code points, dictionaries are
    finite maps, the mutable attributes of an instance are threaded as
    explicit state, and a caught exception is a value of a sum type. *)

From Stdlib Require Import ZArith NArith QArith Qround Ascii String List.
From Stdlib Require Import Numbers.DecimalString.
From stdpp Require Import base gmap strings list.

Set Default Proof Using "Type".
Set Warnings "-clear-no-such-hyp".
Local Open Scope N_scope.

(* ================================================================== *)
(** * Part I.  Python strings                                          *)
(* ================================================================== *)

(** A Python [str] is a sequence of code points. *)
Abbreviation pystr := (list N).

(** Literals are written as UTF-8 text and decoded once. *)
Fixpoint utf8_decode (bs : list N) : pystr :=
  match bs with
  | [] => []
  | b :: r =>
      if b <? 0x80 then b :: utf8_decode r
      else if b <? 0xE0 then
        match r with
        | b1 :: r1 => ((b - 0xC0) * 64 + (b1 - 0x80)) :: utf8_decode r1
        | _ => []
        end
      else if b <? 0xF0 then
        match r with
        | b1 :: b2 :: r2 =>
            ((b - 0xE0) * 4096 + (b1 - 0x80) * 64 + (b2 - 0x80)) :: utf8_decode r2
        | _ => []
        end
      else
        match r with
        | b1 :: b2 :: b3 :: r3 =>
            ((b - 0xF0) * 262144 + (b1 - 0x80) * 4096 + (b2 - 0x80) * 64 + (b3 - 0x80))
              :: utf8_decode r3
        | _ => []
        end
  end.

Definition py (s : string) : pystr :=
  utf8_decode (map N_of_ascii (list_ascii_of_string s)).

(** [str.isspace] on one code point, which is also what [str.split()] and
    [str.strip()] (both without argument) take as white space. *)
Definition is_space (c : N) : bool :=
  ((0x09 <=? c) && (c <=? 0x0D)) || ((0x1C <=? c) && (c <=? 0x20))
  || (c =? 0x85) || (c =? 0xA0) || (c =? 0x1680)
  || ((0x2000 <=? c) && (c <=? 0x200A))
  || (c =? 0x2028) || (c =? 0x2029) || (c =? 0x202F) || (c =? 0x205F)
  || (c =? 0x3000).

Definition SPACE : N := 0x20.

(** [s.split()]: the maximal runs of non-space code points, in order. *)
Fixpoint py_split (s : pystr) : list pystr :=
  match s with
  | [] => []
  | c :: s' =>
      if is_space c then py_split s'
      else
        match s' with
        | [] => [[c]]
        | c' :: _ =>
            if is_space c' then [c] :: py_split s'
            else
              match py_split s' with
              | w :: ws => (c :: w) :: ws
              | [] => [[c]]
              end
        end
  end.

(** [sep.join(parts)] *)
Fixpoint py_join (sep : pystr) (parts : list pystr) : pystr :=
  match parts with
  | [] => []
  | [w] => w
  | w :: ws => w ++ sep ++ py_join sep ws
  end.

(** [s.replace(a, b)] for one-character [a] and [b]. *)
Definition py_replace (a b : N) (s : pystr) : pystr :=
  map (fun c => if c =? a then b else c) s.

(** [s.lstrip()], [s.rstrip()], [s.strip()] *)
Fixpoint py_lstrip (s : pystr) : pystr :=
  match s with
  | [] => []
  | c :: s' => if is_space c then py_lstrip s' else s
  end.

Definition py_rstrip (s : pystr) : pystr := rev (py_lstrip (rev s)).

Definition py_strip (s : pystr) : pystr := py_rstrip (py_lstrip s).

(** [s.startswith(p)] *)
Fixpoint py_startswith (p s : pystr) : bool :=
  match p, s with
  | [], _ => true
  | a :: p', b :: s' => (a =? b) && py_startswith p' s'
  | _ :: _, [] => false
  end.

(** [s.endswith(p)] *)
Definition py_endswith (p s : pystr) : bool :=
  py_startswith (rev p) (rev s).

(** [sub in s] *)
Fixpoint py_contains (sub s : pystr) : bool :=
  py_startswith sub s ||
  match s with
  | [] => false
  | _ :: s' => py_contains sub s'
  end.

(** [s.count(sub)] for a non-empty [sub]: occurrences are taken from the
    left and do not overlap; [skip] is the number of code points still
    covered by the last occurrence found. *)
Fixpoint py_count_from (skip : nat) (sub s : pystr) : nat :=
  match s with
  | [] => 0%nat
  | _ :: s' =>
      match skip with
      | S k => py_count_from k sub s'
      | O =>
          if py_startswith sub s
          then S (py_count_from (Nat.pred (length sub)) sub s')
          else py_count_from 0 sub s'
      end
  end.

Definition py_count (sub s : pystr) : nat := py_count_from 0 sub s.

(** [s.split(sep)] for a non-empty [sep]: [cur] is the piece being read,
    in reverse. *)
Fixpoint py_split_from (skip : nat) (sep cur s : pystr) : list pystr :=
  match s with
  | [] => [rev cur]
  | c :: s' =>
      match skip with
      | S k => py_split_from k sep cur s'
      | O =>
          if py_startswith sep s
          then rev cur :: py_split_from (Nat.pred (length sep)) sep [] s'
          else py_split_from 0 sep (c :: cur) s'
      end
  end.

Definition py_split_sep (sep s : pystr) : list pystr := py_split_from 0 sep [] s.

(** [s.removeprefix(p)] and [s.removesuffix(p)] *)
Definition py_removeprefix (p s : pystr) : pystr :=
  if py_startswith p s then drop (length p) s else s.

Definition py_removesuffix (p s : pystr) : pystr :=
  if py_endswith p s then take (length s - length p)%nat s else s.

(** [str(z)] for an [int]. *)
Definition str_of_Z (z : Z) : pystr :=
  py (NilEmpty.string_of_int (Z.to_int z)).

(* ================================================================== *)
(** * Part II.  Python values and the run-time library                 *)
(* ================================================================== *)

(** The values a record field holds: text, numbers, flags or [None]. *)
Inductive value : Type :=
| VNone
| VBool (b : bool)
| VInt (z : Z)
| VStr (s : pystr).

(** [bool(v)] *)
Definition truthy (v : value) : bool :=
  match v with
  | VNone => false
  | VBool b => b
  | VInt z => negb (z =? 0)%Z
  | VStr s => negb (length s =? 0)%nat
  end.

(** [str(v)], which is also what an f-string field [{v}] renders. *)
Definition str (v : value) : pystr :=
  match v with
  | VNone => py "None"
  | VBool true => py "True"
  | VBool false => py "False"
  | VInt z => str_of_Z z
  | VStr s => s
  end.

(** A record ([Dict[str, Any]]) and [d.get(k, "")]. *)
Abbreviation record := (gmap string value).

Definition get (d : record) (k : string) : value :=
  default (VStr []) (d !! k).

(** A decoded JSON document: scalars, lists and dictionaries. *)
#[warning="-register-all"]
Inductive pyobj : Type :=
| PVal (v : value)
| PList (items : list pyobj)
| PDict (d : gmap string pyobj).

(** The exceptions the code can meet. *)
Inductive exn : Type :=
| KeyError (k : string)
| TypeError
| AttributeError
| OSError.

Inductive result (A : Type) : Type :=
| Ok (a : A)
| Raise (e : exn).
Arguments Ok {A} a.
Arguments Raise {A} e.

Definition result_bind {A B} (m : result A) (k : A -> result B) : result B :=
  match m with
  | Ok a => k a
  | Raise e => Raise e
  end.

(** A naive [datetime]; [<] compares the fields from the year down. *)
Record datetime : Type := mk_datetime {
  year : Z; month : Z; day : Z;
  hour : Z; minute : Z; second : Z; microsecond : Z
}.

Fixpoint lex_lt (a b : list Z) : bool :=
  match a, b with
  | x :: a', y :: b' => (x <? y)%Z || ((x =? y)%Z && lex_lt a' b')
  | _, _ => false
  end.

Definition dt_fields (d : datetime) : list Z :=
  [year d; month d; day d; hour d; minute d; second d; microsecond d].

Definition dt_lt (a b : datetime) : bool := lex_lt (dt_fields a) (dt_fields b).

(** [str(z).zfill(n)] for [z >= 0] *)
Definition zfill (n : nat) (z : Z) : pystr :=
  let s := str_of_Z z in replicate (n - length s)%nat 0x30 ++ s.

(** [d.isoformat()] *)
Definition isoformat (d : datetime) : pystr :=
  zfill 4 (year d) ++ py "-" ++ zfill 2 (month d) ++ py "-" ++ zfill 2 (day d)
  ++ py "T" ++ zfill 2 (hour d) ++ py ":" ++ zfill 2 (minute d)
  ++ py ":" ++ zfill 2 (second d)
  ++ (if (microsecond d =? 0)%Z then [] else py "." ++ zfill 6 (microsecond d)).

(** What the code takes from the Python library and from the machine:
    - [md5_hexdigest key] is [hashlib.md5(key.encode()).hexdigest()], for
      text that UTF-8 encodes;
    - [urlparse url] is [(result.scheme, result.netloc)] of
      [urllib.parse.urlparse(url)], or [None] when it raises;
    - [strptime s fmt] is [datetime.strptime(s, fmt)], or [None] when it
      raises [ValueError];
    - [clock n] is what the [n]-th call of [datetime.now()] returns;
    - [obj_repr x] is [str(x)] for a list or a dictionary [x];
    - [json_dumps x] is [json.dumps(x, ensure_ascii=False, indent=2)];
    - [shuffle l] is the order [random.shuffle] leaves the list [l] in. *)
Class Runtime : Type := {
  md5_hexdigest : pystr -> pystr;
  urlparse : pystr -> option (pystr * pystr);
  strptime : pystr -> pystr -> option datetime;
  clock : nat -> datetime;
  obj_repr : pyobj -> pystr;
  json_dumps : pyobj -> pystr;
  shuffle : list pyobj -> list pyobj;
  shuffle_perm : forall l, Permutation (shuffle l) l
}.

(* ================================================================== *)
(** * Part III.  [DataCleaner]                                         *)
(* ================================================================== *)

(** The instance state: [self.seen_hashes], and next to it the number of
    times the clock has been read so far. *)
Record cleaner : Type := mk_cleaner {
  seen_hashes : gset pystr;
  clock_reads : nat
}.

(** [DataCleaner()] *)
Definition new_cleaner : cleaner := mk_cleaner ∅ 0.

Definition valid_educations : list pystr :=
  [py "不限"; py "专科"; py "本科"; py "硕士"; py "博士";
   py "大专"; py "学士"; py "研究生"; py "PhD"].

(** The local [stats] dictionary of [clean_jobs]. *)
Record stats : Type := mk_stats {
  total : nat;
  duplicates : nat;
  invalid_url : nat;
  missing_fields : nat;
  expired : nat;
  valid : nat
}.

Section DataCleaner.
Context `{RT : Runtime}.

(** The string [_is_duplicate] hashes. *)
Definition dedup_key (job : record) : pystr :=
  str (get job "company_name") ++ str (get job "job_title")
    ++ str (get job "location").

Definition job_hash (job : record) : pystr := md5_hexdigest (dedup_key job).

Definition _is_duplicate (job : record) (c : cleaner) : bool * cleaner :=
  let h := job_hash job in
  if decide (h ∈ seen_hashes c) then (true, c)
  else (false, mk_cleaner ({[h]} ∪ seen_hashes c) (clock_reads c)).

Definition required_fields : list string :=
  ["company_name"; "job_title"; "apply_url"]%string.

Definition field_present (job : record) (field : string) : bool :=
  let v := get job field in
  truthy v && negb (length (py_strip (str v)) =? 0)%nat.

Definition _check_required_fields (job : record) : bool :=
  forallb (field_present job) required_fields.

(** A value that is not a [str] makes [urlparse] raise, or parse to
    empty components; both ways the answer is [False]. *)
Definition _is_valid_url (url : value) : bool :=
  match url with
  | VStr u =>
      match urlparse u with
      | Some (scheme, netloc) =>
          (bool_decide (scheme ∈ [py "http"; py "https"]))
            && negb (length netloc =? 0)%nat
      | None => false
      end
  | _ => false
  end.

Definition date_formats : list pystr :=
  [py "%Y-%m-%d"; py "%Y/%m/%d"; py "%Y-%m-%d %H:%M:%S"; py "%Y/%m/%d %H:%M:%S"].

(** The [for fmt in date_formats] loop: the first format that parses. *)
Fixpoint parse_deadline (deadline : pystr) (fmts : list pystr) : option datetime :=
  match fmts with
  | [] => None
  | fmt :: rest =>
      match strptime deadline fmt with
      | Some d => Some d
      | None => parse_deadline deadline rest
      end
  end.

(** [strptime] on a value that is not a [str] raises [TypeError], which
    the outer handler turns into [False]. *)
Definition _is_expired (deadline : value) (c : cleaner) : bool * cleaner :=
  if negb (truthy deadline) then (false, c)
  else
    match deadline with
    | VStr s =>
        match parse_deadline s date_formats with
        | Some deadline_date =>
            (dt_lt deadline_date (clock (clock_reads c)),
             mk_cleaner (seen_hashes c) (S (clock_reads c)))
        | None => (false, c)
        end
    | _ => (false, c)
    end.

Definition _clean_text (text : value) : pystr :=
  if negb (truthy text) then []
  else
    let text := py_join [SPACE] (py_split (str text)) in
    let text := py_replace 0xA0 SPACE text in
    let text := py_replace 0x3000 SPACE text in
    let text := py_replace 0x09 SPACE text in
    py_strip text.

Definition edu_mapping : list (pystr * pystr) :=
  [(py "大专", py "专科");
   (py "专科及以上", py "专科");
   (py "本科及以上", py "本科");
   (py "硕士及以上", py "硕士");
   (py "博士及以上", py "博士");
   (py "学士", py "本科");
   (py "研究生", py "硕士");
   (py "PhD", py "博士")].

(** [for key, value in mapping.items(): if key in s: return value] *)
Fixpoint first_mapped (mapping : list (pystr * pystr)) (s : pystr) : option pystr :=
  match mapping with
  | [] => None
  | (key, val) :: rest =>
      if py_contains key s then Some val else first_mapped rest s
  end.

Definition _normalize_education (education : value) : pystr :=
  let education := _clean_text education in
  match first_mapped edu_mapping education with
  | Some val => val
  | None =>
      if bool_decide (education ∈ valid_educations) then education
      else py "不限"
  end.

Definition major_cities : list pystr :=
  [py "北京"; py "上海"; py "广州"; py "深圳"; py "杭州"; py "南京";
   py "成都"; py "武汉"; py "西安"; py "重庆"; py "天津"; py "苏州";
   py "长沙"; py "郑州"; py "青岛"; py "大连"].

(** [for city in major_cities: if city in location: return city] *)
Fixpoint first_city (cities : list pystr) (location : pystr) : option pystr :=
  match cities with
  | [] => None
  | city :: rest =>
      if py_contains city location then Some city else first_city rest location
  end.

Definition _normalize_location (location : value) : pystr :=
  let location := _clean_text location in
  match first_city major_cities location with
  | Some city => city
  | None => location
  end.

Definition text_fields : list string :=
  ["company_name"; "job_title"; "location"; "description"; "requirements"]%string.

(** [if field in d: d[field] = f(d[field])] *)
Definition update_if_present (f : value -> pystr) (field : string)
    (d : record) : record :=
  match d !! field with
  | Some v => <[field := VStr (f v)]> d
  | None => d
  end.

Definition _normalize_job (job : record) (c : cleaner) : record * cleaner :=
  let normalized := job in
  let normalized :=
    foldl (fun d field => update_if_present _clean_text field d)
          normalized text_fields in
  let normalized := update_if_present _normalize_education "education" normalized in
  let normalized := update_if_present _normalize_location "location" normalized in
  let normalized :=
    <["cleaned_time" := VStr (isoformat (clock (clock_reads c)))]> normalized in
  (normalized, mk_cleaner (seen_hashes c) (S (clock_reads c))).

(** What the [for job in jobs] loop of [clean_jobs] carries along. *)
Record loop_state : Type := mk_loop {
  ls_self : cleaner;
  ls_stats : stats;
  ls_cleaned : list record
}.

Definition bump_duplicates (s : stats) : stats :=
  mk_stats (total s) (S (duplicates s)) (invalid_url s) (missing_fields s)
           (expired s) (valid s).
Definition bump_missing_fields (s : stats) : stats :=
  mk_stats (total s) (duplicates s) (invalid_url s) (S (missing_fields s))
           (expired s) (valid s).
Definition bump_invalid_url (s : stats) : stats :=
  mk_stats (total s) (duplicates s) (S (invalid_url s)) (missing_fields s)
           (expired s) (valid s).
Definition bump_expired (s : stats) : stats :=
  mk_stats (total s) (duplicates s) (invalid_url s) (missing_fields s)
           (S (expired s)) (valid s).
Definition bump_valid (s : stats) : stats :=
  mk_stats (total s) (duplicates s) (invalid_url s) (missing_fields s)
           (expired s) (S (valid s)).

(** One iteration of the loop; each [continue] ends the iteration. *)
Definition clean_step (st : loop_state) (job : record) : loop_state :=
  let '(dup, c1) := _is_duplicate job (ls_self st) in
  if dup then mk_loop c1 (bump_duplicates (ls_stats st)) (ls_cleaned st)
  else if negb (_check_required_fields job) then
    mk_loop c1 (bump_missing_fields (ls_stats st)) (ls_cleaned st)
  else if negb (_is_valid_url (get job "apply_url")) then
    mk_loop c1 (bump_invalid_url (ls_stats st)) (ls_cleaned st)
  else
    let '(exp, c2) := _is_expired (get job "deadline") c1 in
    if exp then mk_loop c2 (bump_expired (ls_stats st)) (ls_cleaned st)
    else
      let '(cleaned_job, c3) := _normalize_job job c2 in
      mk_loop c3 (bump_valid (ls_stats st)) (ls_cleaned st ++ [cleaned_job]).

Definition clean_init (jobs : list record) (c : cleaner) : loop_state :=
  mk_loop c (mk_stats (length jobs) 0 0 0 0 0) [].

(** [clean_jobs]: the state of the loop once it has run over [jobs].
    The method returns [ls_cleaned], logs [ls_stats] and leaves the
    instance in [ls_self]. *)
Definition clean_jobs (jobs : list record) (c : cleaner) : loop_state :=
  foldl clean_step (clean_init jobs c) jobs.

End DataCleaner.

(* ================================================================== *)
(** * Part IV.  [DatasetBuilder]                                       *)
(* ================================================================== *)

(** [o[k]] *)
Definition getitem (o : pyobj) (k : string) : result pyobj :=
  match o with
  | PDict d =>
      match d !! k with
      | Some v => Ok v
      | None => Raise (KeyError k)
      end
  | _ => Raise TypeError
  end.

(** [o.get(k)] and [o.get(k, dflt)] *)
Definition obj_get (o : pyobj) (k : string) (dflt : pyobj) : result pyobj :=
  match o with
  | PDict d => Ok (default dflt (d !! k))
  | _ => Raise AttributeError
  end.

(** [bool(o)] *)
Definition obj_truthy (o : pyobj) : bool :=
  match o with
  | PVal v => truthy v
  | PList l => negb (length l =? 0)%nat
  | PDict d => negb (size d =? 0)%nat
  end.

(** What [for x in o] runs over. *)
Definition iter_items (o : pyobj) : result (list pyobj) :=
  match o with
  | PList l => Ok l
  | PDict d => Ok (map (fun kv => PVal (VStr (py kv.1))) (map_to_list d))
  | PVal (VStr s) => Ok (map (fun c => PVal (VStr [c])) s)
  | PVal _ => Raise TypeError
  end.

(** [a[lo:hi]] with Python's reading of negative and over-long bounds. *)
Definition slice_index (n : nat) (i : Z) : nat :=
  if (i <? 0)%Z then Z.to_nat (Z.max 0 (i + Z.of_nat n))
  else Nat.min (Z.to_nat i) n.

Definition py_slice {A} (lo hi : option Z) (l : list A) : list A :=
  let n := length l in
  let a := from_option (slice_index n) 0%nat lo in
  let b := from_option (slice_index n) n hi in
  take (b - a)%nat (drop a l).

(** [int(x)] on a number: truncation towards zero.  Ratios are exact
    rationals here. *)
Definition py_int (x : Q) : Z :=
  if Qle_bool 0 x then Qfloor x else Qceiling x.

(** [template.format] with keyword arguments, for a template whose replacement fields
    are plain names: [field] is the name being read, in reverse. *)
Fixpoint py_format_go (tpl : pystr) (field : option pystr)
    (kwargs : list (pystr * pystr)) : result pystr :=
  match tpl with
  | [] => Ok []
  | c :: tpl' =>
      match field with
      | None =>
          if c =? 0x7B then py_format_go tpl' (Some []) kwargs
          else result_bind (py_format_go tpl' None kwargs) (fun r => Ok (c :: r))
      | Some name =>
          if c =? 0x7D then
            match list_find (fun kv => kv.1 = rev name) kwargs with
            | Some (_, (_, v)) =>
                result_bind (py_format_go tpl' None kwargs) (fun r => Ok (v ++ r))
            | None => Raise (KeyError "")
            end
          else py_format_go tpl' (Some (c :: name)) kwargs
      end
  end.

Definition py_format (tpl : pystr) (kwargs : list (pystr * pystr)) : result pystr :=
  py_format_go tpl None kwargs.

Definition MISTRAL_PROMPT_TEMPLATE : pystr :=
  py "<s>[INST] {instruction} [/INST] {response}</s>".

(** [self.MISTRAL_PROMPT_TEMPLATE.format(instruction=.., response=..)] *)
Definition render (instruction response : pystr) : result pystr :=
  py_format MISTRAL_PROMPT_TEMPLATE
    [(py "instruction", instruction); (py "response", response)].

(** The attributes of a [DatasetBuilder]. *)
Record builder : Type := mk_builder {
  train_data : list pyobj;
  eval_data : list pyobj;
  test_data : list pyobj
}.


(** [for x in xs: ys.append(f(x))], stopping at the first exception. *)
Fixpoint result_map {A B} (f : A -> result B) (xs : list A) : result (list B) :=
  match xs with
  | [] => Ok []
  | x :: xs' =>
      result_bind (f x) (fun y =>
      result_bind (result_map f xs') (fun ys => Ok (y :: ys)))
  end.

Definition NL : N := 0x0A.

Section DatasetBuilder.
Context `{RT : Runtime}.

(** The two sample builders whose texts no statement below looks into;
    each maps its bucket to a list of samples, or raises. *)
Variable _build_job_matching_samples : list pyobj -> result (list pyobj).
Variable _build_advice_samples : list pyobj -> result (list pyobj).

(** [f"{o}"] *)
Definition obj_str (o : pyobj) : pystr :=
  match o with
  | PVal v => str v
  | _ => obj_repr o
  end.

Definition input_parsing_instruction (user_input : pyobj) : pystr :=
  py "你是一个招聘助手，负责解析用户的求职需求。" ++ [NL]
  ++ py "请根据用户输入，提取关键信息并以 JSON 格式输出，包括：专业(major)、学历(education)、目标企业类型(target_company_type)、地点(location)、岗位类型(job_type)、职位(position)。"
  ++ [NL; NL]
  ++ py "用户输入：" ++ obj_str user_input.

Definition sample_of_text (text : pystr) : pyobj :=
  PDict {[ "text"%string := PVal (VStr text) ]}.

Definition build_input_parsing_sample (item : pyobj) : result pyobj :=
  result_bind (getitem item "user_input") (fun user_input =>
  result_bind (getitem item "structured_params") (fun params =>
  let instruction := input_parsing_instruction user_input in
  let response := json_dumps params in
  result_bind (render instruction response) (fun text =>
  Ok (sample_of_text text)))).

Definition _build_input_parsing_samples (items : list pyobj) : result (list pyobj) :=
  result_map build_input_parsing_sample items.

(** The three buckets of [grouped_data], in the order of its keys. *)
Record buckets : Type := mk_buckets {
  user_input_parsing : list pyobj;
  job_matching : list pyobj;
  advice_generation : list pyobj
}.

(** [ann_type in grouped_data] hashes [ann_type]. *)
Definition group_one (g : buckets) (ann : pyobj) : result buckets :=
  result_bind (obj_get ann "type" (PVal VNone)) (fun ann_type =>
  match ann_type with
  | PVal (VStr t) =>
      if decide (t = py "user_input_parsing") then
        Ok (mk_buckets (user_input_parsing g ++ [ann]) (job_matching g)
                       (advice_generation g))
      else if decide (t = py "job_matching") then
        Ok (mk_buckets (user_input_parsing g) (job_matching g ++ [ann])
                       (advice_generation g))
      else if decide (t = py "advice_generation") then
        Ok (mk_buckets (user_input_parsing g) (job_matching g)
                       (advice_generation g ++ [ann]))
      else Ok g
  | PVal _ => Ok g
  | _ => Raise TypeError
  end).

Fixpoint group_annotations (g : buckets) (annotations : list pyobj) : result buckets :=
  match annotations with
  | [] => Ok g
  | ann :: rest => result_bind (group_one g ann) (fun g' => group_annotations g' rest)
  end.


(** Lines 70-77: the three slices of the shuffled list. *)
Definition split_samples (all_samples : list pyobj) (train_ratio eval_ratio : Q)
    : builder :=
  let total := length all_samples in
  let train_size := py_int (inject_Z (Z.of_nat total) * train_ratio) in
  let eval_size := py_int (inject_Z (Z.of_nat total) * eval_ratio) in
  mk_builder
    (py_slice None (Some train_size) all_samples)
    (py_slice (Some train_size) (Some (train_size + eval_size)%Z) all_samples)
    (py_slice (Some (train_size + eval_size)%Z) None all_samples).


(** [get_dataset_stats]["total_size"] *)
Definition total_size (self : builder) : nat :=
  (length (train_data self) + length (eval_data self) + length (test_data self))%nat.

End DatasetBuilder.

(* ================================================================== *)
(** * Part V.  [DataValidator]                                         *)
(* ================================================================== *)

(** The three task names, in the order of the keys of [keyword_counts]. *)
Inductive task : Type :=
| UserInputParsing
| JobMatching
| AdviceGeneration.

Definition tasks : list task := [UserInputParsing; JobMatching; AdviceGeneration].

Definition task_name (t : task) : pystr :=
  match t with
  | UserInputParsing => py "user_input_parsing"
  | JobMatching => py "job_matching"
  | AdviceGeneration => py "advice_generation"
  end.

(** The entries of [self.errors] and [self.warnings].  Each constructor
    stands for one f-string of the source and carries the values the
    f-string interpolates. *)
Inductive message : Type :=
| DatasetEmpty                      (* "Dataset is empty" *)
| FailedToLoad (e : exn)            (* "Failed to load dataset: {e}" *)
| NotADict (i : nat)                (* "Item {i}: Not a dictionary" *)
| MissingText (i : nat)             (* "Item {i}: Missing 'text' field" *)
| TextNotString (i : nat)           (* "Item {i}: 'text' field is not a string" *)
| NoStartTag (i : nat)              (* "Item {i}: Does not start with Mistral instruction tag" *)
| MissingCloseTag (i : nat)         (* "Item {i}: Missing instruction closing tag" *)
| NoEndTag (i : nat)                (* "Item {i}: Does not end with closing tag" *)
| TextTooShort (i len : nat)        (* "Item {i}: Text too short ({len} chars)" *)
| TextVeryLong (i len : nat)        (* "Item {i}: Text very long ({len} chars), may need truncation" *)
| DuplicateText (i : nat)           (* "Item {i}: Duplicate text found" *)
| TotalDuplicates (n : nat)         (* "Total {n} duplicate items found" *)
| Underrepresented (t : task) (ratio : Q)
                                    (* "Task '{task}' is underrepresented ({ratio:.1%})" *)
| DatasetSmall (n : nat)            (* "Dataset is small ({n} samples), may need more data" *)
| SamplesVeryLong (max_length : nat).
                                    (* "Some samples are very long (max {max_length}), consider truncation" *)

(** The attributes of a [DataValidator]. *)
Record validator : Type := mk_validator {
  errors : list message;
  warnings : list message
}.

Definition new_validator : validator := mk_validator [] [].

(** A computation on a validator that may raise; what it has appended
    before raising stays appended. *)
Definition V (A : Type) : Type := validator -> validator * result A.

Definition v_ret {A} (a : A) : V A := fun s => (s, Ok a).

Definition v_bind {A B} (m : V A) (k : A -> V B) : V B :=
  fun s =>
    match m s with
    | (s', Ok a) => k a s'
    | (s', Raise e) => (s', Raise e)
    end.

Definition v_lift {A} (r : result A) : V A := fun s => (s, r).

Definition add_error (m : message) : V unit :=
  fun s => (mk_validator (errors s ++ [m]) (warnings s), Ok tt).

Definition add_warning (m : message) : V unit :=
  fun s => (mk_validator (errors s) (warnings s ++ [m]), Ok tt).

Definition v_when (b : bool) (m : V unit) : V unit :=
  if b then m else v_ret tt.

Notation "'do' x <- m ; k" := (v_bind m (fun x => k))
  (at level 10, x name, m at level 100, k at level 200).
Notation "m ;; k" := (v_bind m (fun _ => k))
  (at level 100, k at level 200, right associativity).

(** [for i, item in enumerate(items): acc = body(acc, i, item)] *)
Fixpoint v_for {St} (body : St -> nat -> pyobj -> V St) (acc : St) (i : nat)
    (items : list pyobj) : V St :=
  match items with
  | [] => v_ret acc
  | item :: rest => do acc' <- body acc i item; v_for body acc' (S i) rest
  end.

Definition is_dict (o : pyobj) : bool :=
  match o with PDict _ => true | _ => false end.

Definition is_str (o : pyobj) : bool :=
  match o with PVal (VStr _) => true | _ => false end.

(** ["text" not in item], for a dictionary [item]. *)
Definition lacks_text (item : pyobj) : bool :=
  match item with
  | PDict d => bool_decide (d !! "text"%string = None)
  | _ => true
  end.

(** [item.get("text", "")] *)
Definition get_text (item : pyobj) : result pyobj :=
  obj_get item "text" (PVal (VStr [])).

(** A method of [str] called on [text]. *)
Definition as_str (text : pyobj) : result pystr :=
  match text with
  | PVal (VStr s) => Ok s
  | _ => Raise AttributeError
  end.

Definition _check_format (data : pyobj) : V unit :=
  do items <- v_lift (iter_items data);
  v_for (fun (_ : unit) i item =>
    if negb (is_dict item) then add_error (NotADict i)
    else
      v_when (lacks_text item) (add_error (MissingText i)) ;;
      do text <- v_lift (obj_get item "text" (PVal VNone));
      v_when (negb (is_str text)) (add_error (TextNotString i)))
    tt 0%nat items.

Definition _check_completeness (data : pyobj) : V unit :=
  do items <- v_lift (iter_items data);
  v_for (fun (_ : unit) i item =>
    do text <- v_lift (get_text item);
    do text <- v_lift (as_str text);
    v_when (negb (py_startswith (py "<s>[INST]") text)) (add_warning (NoStartTag i)) ;;
    v_when (negb (py_contains (py "[/INST]") text)) (add_error (MissingCloseTag i)) ;;
    v_when (negb (py_endswith (py "</s>") text)) (add_warning (NoEndTag i)) ;;
    if (length text <? 50)%nat then add_warning (TextTooShort i (length text))
    else v_when (2048 <? length text)%nat (add_warning (TextVeryLong i (length text))))
    tt 0%nat items.

(** [a == b] on scalars; [True] and [False] are the integers 1 and 0. *)
Definition as_int (v : value) : option Z :=
  match v with
  | VBool true => Some 1%Z
  | VBool false => Some 0%Z
  | VInt z => Some z
  | _ => None
  end.

Definition py_eq (a b : value) : bool :=
  match as_int a, as_int b with
  | Some x, Some y => (x =? y)%Z
  | None, None =>
      match a, b with
      | VNone, VNone => true
      | VStr s, VStr t => bool_decide (s = t)
      | _, _ => false
      end
  | _, _ => false
  end.

(** [text in seen_texts] hashes [text]. *)
Definition seen_before (seen_texts : list value) (text : pyobj) : result bool :=
  match text with
  | PVal v => Ok (existsb (py_eq v) seen_texts)
  | _ => Raise TypeError
  end.

Definition hashable (text : pyobj) : result value :=
  match text with
  | PVal v => Ok v
  | _ => Raise TypeError
  end.

(** [kw in text] for a string [kw]; a list or a dictionary has already
    made the first loop raise. *)
Definition text_has (kw : pystr) (text : pyobj) : result bool :=
  match text with
  | PVal (VStr s) => Ok (py_contains kw s)
  | _ => Raise TypeError
  end.

(** The two marker phrases of each task. *)
Definition markers (t : task) : pystr * pystr :=
  match t with
  | UserInputParsing => (py "解析用户的求职需求", py "提取关键信息")
  | JobMatching => (py "匹配合适的岗位", py "匹配结果")
  | AdviceGeneration => (py "职业规划", py "简历优化")
  end.

(** [m1 in text or m2 in text] *)
Definition matches (t : task) (text : pyobj) : result bool :=
  result_bind (text_has (markers t).1 text) (fun b1 =>
  if b1 then Ok true else text_has (markers t).2 text).

(** The local dictionary [keyword_counts]. *)
Record keyword_counts : Type := mk_counts {
  n_parsing : nat;
  n_matching : nat;
  n_advice : nat
}.

Definition count_of (k : keyword_counts) (t : task) : nat :=
  match t with
  | UserInputParsing => n_parsing k
  | JobMatching => n_matching k
  | AdviceGeneration => n_advice k
  end.

Definition Qnat (n : nat) : Q := inject_Z (Z.of_nat n).

Definition _check_content_quality (data : pyobj) : V unit :=
  do items <- v_lift (iter_items data);
  do r <- v_for (fun (acc : list value * nat) i item =>
            let '(seen_texts, duplicates) := acc in
            do text <- v_lift (get_text item);
            do dup <- v_lift (seen_before seen_texts text);
            if dup then
              add_warning (DuplicateText i) ;; v_ret (seen_texts, S duplicates)
            else
              do v <- v_lift (hashable text);
              v_ret (seen_texts ++ [v], duplicates))
          ([], 0%nat) 0%nat items;
  let duplicates := r.2 in
  v_when (0 <? duplicates)%nat (add_warning (TotalDuplicates duplicates)) ;;
  do counts <- v_for (fun (k : keyword_counts) _ item =>
            do text <- v_lift (get_text item);
            do b1 <- v_lift (matches UserInputParsing text);
            let k := if b1 then mk_counts (S (n_parsing k)) (n_matching k) (n_advice k)
                     else k in
            do b2 <- v_lift (matches JobMatching text);
            let k := if b2 then mk_counts (n_parsing k) (S (n_matching k)) (n_advice k)
                     else k in
            do b3 <- v_lift (matches AdviceGeneration text);
            let k := if b3 then mk_counts (n_parsing k) (n_matching k) (S (n_advice k))
                     else k in
            v_ret k)
          (mk_counts 0 0 0) 0%nat items;
  let total := (n_parsing counts + n_matching counts + n_advice counts)%nat in
  if (0 <? total)%nat then
    foldr (fun t rest =>
             let ratio := (Qnat (count_of counts t) / Qnat total)%Q in
             v_when (negb (Qle_bool (15 # 100) ratio))
                    (add_warning (Underrepresented t ratio)) ;;
             rest)
          (v_ret tt) tasks
  else v_ret tt.

(** [len(x)] *)
Definition py_len (o : pyobj) : result nat :=
  match o with
  | PVal (VStr s) => Ok (length s)
  | PList l => Ok (length l)
  | PDict d => Ok (size d)
  | PVal _ => Raise TypeError
  end.

Definition list_max (l : list nat) : nat :=
  match l with
  | [] => 0%nat
  | x :: r => foldl Nat.max x r
  end.

(** [_check_statistics]: of the [stats] dictionary only [total_samples]
    and [max_length] are read after it is logged. *)
Definition _check_statistics (data : pyobj) : V unit :=
  do items <- v_lift (iter_items data);
  do text_lengths <- v_lift (result_map (fun item =>
                        result_bind (get_text item) py_len) items);
  let total_samples := length items in
  let max_length := list_max text_lengths in
  v_when (total_samples <? 1000)%nat (add_warning (DatasetSmall total_samples)) ;;
  v_when (2048 <? max_length)%nat (add_warning (SamplesVeryLong max_length)).

(** The [try] block of [validate_dataset], after the two lists have been
    emptied; [loaded] is what reading and decoding the file gives. *)
Definition validate_body (loaded : result pyobj) : V bool :=
  do data <- v_lift loaded;
  if negb (obj_truthy data) then
    add_error DatasetEmpty ;; v_ret false
  else
    _check_format data ;;
    _check_completeness data ;;
    _check_content_quality data ;;
    _check_statistics data ;;
    fun s => (s, Ok (length (errors s) =? 0)%nat).

(** [validate_dataset]: the flag it returns, and the instance, whose
    [errors] and [warnings] are the two lists it returns. *)
Definition validate_dataset (loaded : result pyobj) (self : validator)
    : bool * validator :=
  match validate_body loaded new_validator with
  | (s, Ok passed) => (passed, s)
  | (s, Raise e) => (false, mk_validator (errors s ++ [FailedToLoad e]) (warnings s))
  end.

(* ================================================================== *)
(** * A run-time to execute the definitions on examples                *)
(* ================================================================== *)

(** Every statement below holds for all run-times.  To run the code on
    concrete records one is fixed here: a checksum for the digest, URLs
    of the shape [scheme://host/path], zero-padded dates, a clock that
    advances by one second per reading, and a shuffle that reverses. *)

Definition sample_digest (key : pystr) : pystr :=
  str_of_Z (foldr (fun c acc => (Z.of_N c + 31 * acc) mod 4294967296)%Z 7%Z key).

Fixpoint until_slash (s : pystr) : pystr :=
  match s with
  | [] => []
  | c :: s' => if c =? 0x2F then [] else c :: until_slash s'
  end.

Definition sample_urlparse (u : pystr) : option (pystr * pystr) :=
  match py_split_sep (py "://") u with
  | scheme :: rest :: _ => Some (scheme, until_slash rest)
  | _ => Some ([], [])
  end.

Fixpoint read_digits (n : nat) (acc : Z) (s : pystr) : option (Z * pystr) :=
  match n with
  | O => Some (acc, s)
  | S n' =>
      match s with
      | c :: s' =>
          if (0x30 <=? c) && (c <=? 0x39)
          then read_digits n' (10 * acc + Z.of_N (c - 0x30))%Z s'
          else None
      | [] => None
      end
  end.

Definition set_field (k : N) (z : Z) (d : datetime) : datetime :=
  if k =? 0x59 then mk_datetime z (month d) (day d) (hour d) (minute d) (second d) 0
  else if k =? 0x6D then mk_datetime (year d) z (day d) (hour d) (minute d) (second d) 0
  else if k =? 0x64 then mk_datetime (year d) (month d) z (hour d) (minute d) (second d) 0
  else if k =? 0x48 then mk_datetime (year d) (month d) (day d) z (minute d) (second d) 0
  else if k =? 0x4D then mk_datetime (year d) (month d) (day d) (hour d) z (second d) 0
  else mk_datetime (year d) (month d) (day d) (hour d) (minute d) z 0.

Fixpoint sample_strptime_go (fmt s : pystr) (d : datetime) : option datetime :=
  match fmt with
  | [] => match s with [] => Some d | _ :: _ => None end
  | c :: fmt' =>
      if c =? 0x25 then
        match fmt' with
        | k :: fmt'' =>
            match read_digits (if k =? 0x59 then 4 else 2) 0 s with
            | Some (z, s') => sample_strptime_go fmt'' s' (set_field k z d)
            | None => None
            end
        | [] => None
        end
      else
        match s with
        | c' :: s' => if c =? c' then sample_strptime_go fmt' s' d else None
        | [] => None
        end
  end.

Definition sample_strptime (s fmt : pystr) : option datetime :=
  sample_strptime_go fmt s (mk_datetime 1900 1 1 0 0 0 0).

Definition sample_clock (n : nat) : datetime :=
  mk_datetime 2026 1 1 0 0 (Z.of_nat n) 0.

Definition sample_runtime : Runtime := {|
  md5_hexdigest := sample_digest;
  urlparse := sample_urlparse;
  strptime := sample_strptime;
  clock := sample_clock;
  obj_repr := fun _ => py "{...}";
  json_dumps := fun _ => py "{}";
  shuffle := @rev pyobj;
  shuffle_perm := fun l => Permutation_sym (Permutation_rev l)
|}.




(* ================================================================== *)
(** * The vocabulary of the statements, and the data of the examples   *)
(* ================================================================== *)

(** A word: what [split()] returns, a non-empty run without white space. *)
Definition word (w : pystr) : Prop :=
  w <> [] /\ Forall (fun c => is_space c = false) w.

(** The normal form of a string is its words joined by single spaces. *)
Definition normal_form (s : pystr) : pystr := py_join [SPACE] (py_split s).

(** The five outcome counters of [stats]. *)
Inductive counter : Type :=
| CValid | CDuplicates | CMissingFields | CInvalidUrl | CExpired.

Global Instance counter_eq_dec : EqDecision counter.
Proof. solve_decision. Defined.







(** The five values [_normalize_education] can return. *)
Definition canonical_educations : list pystr :=
  [py "不限"; py "专科"; py "本科"; py "硕士"; py "博士"].

(** What [_normalize_job] does to the value [v] of field [k]. *)
Definition normalize_value (k : string) (v : value) : value :=
  if decide (k = "location"%string)
  then VStr (_normalize_location (VStr (_clean_text v)))
  else if decide (k = "education"%string) then VStr (_normalize_education v)
  else if bool_decide (k ∈ text_fields) then VStr (_clean_text v)
  else v.




Definition sample_annotation (user_input : pystr) : pyobj :=
  PDict (<["type" := PVal (VStr (py "user_input_parsing"))]>
        (<["user_input" := PVal (VStr user_input)]>
        (<["structured_params" := PDict ∅]> ∅))).



Definition INST_OPEN : pystr := py "<s>[INST]".

Definition INST_CLOSE : pystr := py "[/INST]".

Definition END_TAG : pystr := py "</s>".

(** Reading a sample back: drop the opening and the end tag, split on the
    closing tag, and take the blank that the template puts on each side
    of the instruction and before the response off the two pieces. *)
Definition parse_sample (text : pystr) : option (pystr * pystr) :=
  let body := py_removesuffix END_TAG (py_removeprefix INST_OPEN text) in
  match py_split_sep INST_CLOSE body with
  | [a; b] =>
      Some (py_removesuffix [SPACE] (py_removeprefix [SPACE] a),
            py_removeprefix [SPACE] b)
  | _ => None
  end.

(** No occurrence of [sub] in [before ++ after] begins in [before]. *)
Definition clear_of (sub before after : pystr) : Prop :=
  forall k, (k < length before)%nat ->
            py_startswith sub (drop k before ++ after) = false.

(** The text of an item that is a dictionary whose ["text"], when it has
    one, is a string. *)
Definition text_of (item : pyobj) : option pystr :=
  match item with
  | PDict d =>
      match d !! "text"%string with
      | None => Some []
      | Some (PVal (VStr s)) => Some s
      | Some _ => None
      end
  | _ => None
  end.

Definition well_formed_item (item : pyobj) : Prop := is_Some (text_of item).

(** The text holds one of the two marker phrases of the task. *)
Definition has_marker (t : task) (text : pystr) : bool :=
  py_contains (markers t).1 text || py_contains (markers t).2 text.

Definition item_matches (t : task) (item : pyobj) : bool :=
  match text_of item with
  | Some s => has_marker t s
  | None => false
  end.

(** The keyword-match count of a task: the number of samples whose text
    holds one of its marker phrases. *)
Definition task_count (t : task) (items : list pyobj) : nat :=
  length (List.filter (item_matches t) items).

Definition match_total (items : list pyobj) : nat :=
  (task_count UserInputParsing items + task_count JobMatching items
   + task_count AdviceGeneration items)%nat.

Definition is_task_warning (m : message) : bool :=
  match m with Underrepresented _ _ => true | _ => false end.

(** The warnings of the last loop of [_check_content_quality]. *)
Definition task_warnings (k : keyword_counts) : list message :=
  let total := (n_parsing k + n_matching k + n_advice k)%nat in
  if (0 <? total)%nat then
    concat (map (fun t =>
                   let ratio := (Qnat (count_of k t) / Qnat total)%Q in
                   if negb (Qle_bool (15 # 100) ratio)
                   then [Underrepresented t ratio] else [])
                tasks)
  else [].

Definition add_counts (k : keyword_counts) (items : list pyobj) : keyword_counts :=
  mk_counts (n_parsing k + task_count UserInputParsing items)
            (n_matching k + task_count JobMatching items)
            (n_advice k + task_count AdviceGeneration items).

Definition balance_items : list pyobj :=
  [sample_of_text (py "<s>[INST] 你是一个招聘助手，负责解析用户的求职需求。 [/INST] {}</s>");
   sample_of_text (py "<s>[INST] 请输出匹配结果 [/INST] []</s>")].

(** The scenario of the specification: one well-formed sample. *)
Definition one_sample : pyobj :=
  PList [sample_of_text (py "<s>[INST] x [/INST] y</s>")].

(** The two records of the scenarios of the specification. *)
Definition acme_job (apply_url : pystr) : record :=
  <["company_name" := VStr (py "Acme")]>
  (<["job_title" := VStr (py "Engineer")]>
  (<["location" := VStr (py "Beijing")]>
  (<["apply_url" := VStr apply_url]> ∅))).

Definition acme_bachelor_job : record :=
  <["education" := VStr (py "本科及以上")]> (acme_job (py "https://acme.example/123")).

(* ================================================================== *)
(** * More of the code, and the vocabulary of the further statements   *)
(* ================================================================== *)

(** ** Runs of [clean_jobs] *)






(** ** [crawlers/utils.py]: [clean_text], and the normalised fields *)

(** [clean_text] of [crawlers/utils.py], a module-level function.  It
    calls [text.split()] on its argument as it is, so a truthy value that
    is not a [str] raises. *)
Definition clean_text (text : value) : result pystr :=
  if negb (truthy text) then Ok []
  else
    match text with
    | VStr s =>
        let text := py_join [SPACE] (py_split s) in
        let text := py_replace 0xA0 SPACE text in
        let text := py_replace 0x3000 SPACE text in
        Ok (py_strip text)
    | _ => Raise AttributeError
    end.

(** The members of [valid_educations] that [edu_mapping] maps away. *)
Definition mapped_educations : list pystr :=
  [py "大专"; py "学士"; py "研究生"; py "PhD"].

(** The fields [_normalize_job] rewrites or adds. *)
Definition normalized_fields : list string :=
  ["company_name"; "job_title"; "location"; "description"; "requirements";
   "education"; "cleaned_time"]%string.

(** ** [DatasetBuilder._build_advice_samples] and [_format_tips_list] *)

Section AdviceSamples.
Context `{RT : Runtime}.

(** [_format_tips_list]: one line [- tip] per tip. *)
Definition _format_tips_list (tips : pyobj) : result pystr :=
  result_bind (iter_items tips) (fun tips =>
  Ok (py_join [NL] (map (fun tip => py "- " ++ obj_str tip) tips))).

Definition advice_instruction (scenario : pyobj) : pystr :=
  py "你是一个资深的职业规划顾问，请根据求职场景提供针对性的建议。" ++ [NL; NL]
  ++ py "求职场景：" ++ obj_str scenario ++ [NL; NL]
  ++ py "请提供以下三方面的建议（每方面3-5条）：" ++ [NL]
  ++ py "1. 简历优化建议" ++ [NL]
  ++ py "2. 面试准备建议" ++ [NL]
  ++ py "3. 投递策略建议".

Definition advice_response (resume interview strategy : pystr) : pystr :=
  py "## 简历优化建议" ++ [NL; NL] ++ resume ++ [NL; NL]
  ++ py "## 面试准备建议" ++ [NL; NL] ++ interview ++ [NL; NL]
  ++ py "## 投递策略建议" ++ [NL; NL] ++ strategy.

(** [self._format_tips_list(advice.get(key, []))] *)
Definition tips_of (advice : pyobj) (key : string) : result pystr :=
  result_bind (obj_get advice key (PList [])) _format_tips_list.

Definition build_advice_sample (item : pyobj) : result pyobj :=
  result_bind (getitem item "scenario") (fun scenario =>
  result_bind (getitem item "advice") (fun advice =>
  let instruction := advice_instruction scenario in
  result_bind (tips_of advice "resume_optimization") (fun resume =>
  result_bind (tips_of advice "interview_preparation") (fun interview =>
  result_bind (tips_of advice "application_strategy") (fun strategy =>
  let response := advice_response resume interview strategy in
  result_bind (render instruction response) (fun text =>
  Ok (sample_of_text text))))))).

Definition _build_advice_samples (items : list pyobj) : result (list pyobj) :=
  result_map build_advice_sample items.

End AdviceSamples.

(** The text of a sample made from [instruction] and [response]. *)
Definition sample_text (instruction response : pystr) : pystr :=
  INST_OPEN ++ SPACE :: instruction ++ SPACE :: INST_CLOSE
    ++ SPACE :: response ++ END_TAG.

(** A sample as the template and the validator's marker phrases of task
    [t] want it. *)
Definition sample_shape_ok (t : task) (sample : pyobj) : Prop :=
  exists text,
    sample = sample_of_text text
    /\ py_startswith INST_OPEN text = true
    /\ py_endswith END_TAG text = true
    /\ py_contains INST_CLOSE text = true
    /\ has_marker t text = true.

(** A list of tips as the annotator writes it. *)
Definition tips_list (tips : list pystr) : pyobj :=
  PList (map (fun t => PVal (VStr t)) tips).

(** Two annotations of the first kind, and one of the third with two
    résumé tips and no other. *)
Definition sample_annotations_parsing : list pyobj :=
  [sample_annotation (py "硕士，上海，算法");
   sample_annotation (py "大专，深圳，测试")].

Definition sample_advice : pyobj :=
  PDict (<["type" := PVal (VStr (py "advice_generation"))]>
        (<["scenario" := PVal (VStr (py "应届生求职"))]>
        (<["advice" := PDict {[ "resume_optimization" :=
                                  tips_list [py "突出项目经验"; py "量化成果"] ]}]> ∅))).

(** ** The messages of the checks of [DataValidator] *)

(** An item that is a dictionary whose ["text"] is a string. *)
Definition has_str_text (item : pyobj) : bool :=
  match item with
  | PDict d =>
      match d !! "text"%string with
      | Some (PVal (VStr _)) => true
      | _ => false
      end
  | _ => false
  end.

(** An item no check reports an error for: a dictionary whose ["text"] is
    a string that holds the closing tag. *)
Definition passing_item (item : pyobj) : bool :=
  match item with
  | PDict d =>
      match d !! "text"%string with
      | Some (PVal (VStr s)) => py_contains (py "[/INST]") s
      | _ => false
      end
  | _ => false
  end.

(** The messages the code appends to [self.errors]; the others go to
    [self.warnings]. *)
Definition is_error_kind (m : message) : bool :=
  match m with
  | DatasetEmpty | FailedToLoad _ | NotADict _ | MissingText _
  | TextNotString _ | MissingCloseTag _ => true
  | _ => false
  end.

(** What a computation appends: errors that satisfy [Pe] and warnings
    that satisfy [Pw], and it removes nothing. *)
Definition adds {A} (Pe Pw : message -> Prop) (m : V A) : Prop :=
  forall s, exists e w,
    errors (m s).1 = errors s ++ e
    /\ warnings (m s).1 = warnings s ++ w
    /\ Forall Pe e /\ Forall Pw w.

Definition no_message (m : message) : Prop := False.

Definition error_kind (m : message) : Prop := is_error_kind m = true.

Definition warning_kind (m : message) : Prop := is_error_kind m = false.

(** What [_check_format] reports for the item at index [i]. *)
Definition format_errors (i : nat) (item : pyobj) : list message :=
  match item with
  | PDict d =>
      match d !! "text"%string with
      | None => [MissingText i; TextNotString i]
      | Some (PVal (VStr _)) => []
      | Some _ => [TextNotString i]
      end
  | _ => [NotADict i]
  end.

(** The messages of a loop over [enumerate(items)] that starts at index
    [i] and reports [f i item] for each item. *)
Fixpoint messages_from (f : nat -> pyobj -> list message) (i : nat)
    (items : list pyobj) : list message :=
  match items with
  | [] => []
  | item :: rest => f i item ++ messages_from f (S i) rest
  end.

Definition format_errors_from : nat -> list pyobj -> list message :=
  messages_from format_errors.

(** The text [item.get("text", "")] of a well-formed item. *)
Definition text_or_empty (item : pyobj) : pystr := default [] (text_of item).

(** What [_check_completeness] reports for the text at index [i]. *)
Definition completeness_errors (i : nat) (text : pystr) : list message :=
  if py_contains (py "[/INST]") text then [] else [MissingCloseTag i].

Definition completeness_warnings (i : nat) (text : pystr) : list message :=
  (if py_startswith (py "<s>[INST]") text then [] else [NoStartTag i])
  ++ (if py_endswith (py "</s>") text then [] else [NoEndTag i])
  ++ (if (length text <? 50)%nat then [TextTooShort i (length text)]
      else if (2048 <? length text)%nat then [TextVeryLong i (length text)]
      else []).

Definition completeness_errors_from : nat -> list pyobj -> list message :=
  messages_from (fun i item => completeness_errors i (text_or_empty item)).

Definition completeness_warnings_from : nat -> list pyobj -> list message :=
  messages_from (fun i item => completeness_warnings i (text_or_empty item)).

(** What [_check_statistics] reports. *)
Definition statistics_warnings (items : list pyobj) : list message :=
  let n := length items in
  let m := list_max (map (fun item => length (text_or_empty item)) items) in
  (if (n <? 1000)%nat then [DatasetSmall n] else [])
  ++ (if (2048 <? m)%nat then [SamplesVeryLong m] else []).

(** The warnings of [_check_content_quality]. *)
Definition quality_kind (m : message) : Prop :=
  match m with
  | DuplicateText _ | TotalDuplicates _ | Underrepresented _ _ => True
  | _ => False
  end.

(** A dataset of three items: a sample, a list, and a sample again. *)
Definition dataset_with_a_list : list pyobj :=
  [sample_of_text (py "<s>[INST] x [/INST] y</s>"); PList [];
   sample_of_text (py "<s>[INST] x [/INST] y</s>")].

(** ** The buckets of [build_from_annotations] *)

(** An annotation whose ["type"] is the string [name]. *)
Definition has_type (name : pystr) (ann : pyobj) : bool :=
  match ann with
  | PDict d =>
      match d !! "type"%string with
      | Some (PVal (VStr t)) => bool_decide (t = name)
      | _ => false
      end
  | _ => false
  end.

(** An annotation the grouping loop gets past: a dictionary whose
    ["type"], when it has one, can be hashed. *)
Definition groupable (ann : pyobj) : bool :=
  match ann with
  | PDict d =>
      match d !! "type"%string with
      | Some (PVal _) | None => true
      | Some _ => false
      end
  | _ => false
  end.

(** The three buckets as filters of the input. *)
Definition buckets_of (annotations : list pyobj) : buckets :=
  mk_buckets (List.filter (has_type (py "user_input_parsing")) annotations)
             (List.filter (has_type (py "job_matching")) annotations)
             (List.filter (has_type (py "advice_generation")) annotations).

(** Two triples of buckets, one appended to the other. *)
Definition add_buckets (g h : buckets) : buckets :=
  mk_buckets (user_input_parsing g ++ user_input_parsing h)
             (job_matching g ++ job_matching h)
             (advice_generation g ++ advice_generation h).


(** ** [crawlers/zhihu_crawler.py]: [ZhihuCrawler.extract_job_advice] *)

(** The four keys of the [advice] dictionary, in the order of the
    [if]/[elif] chain. *)
Inductive advice_kind : Type :=
| Resume
| Interview
| Strategy
| Skills.

Global Instance advice_kind_eq_dec : EqDecision advice_kind.
Proof. solve_decision. Defined.

Definition advice_kinds : list advice_kind := [Resume; Interview; Strategy; Skills].

Definition advice_keywords (k : advice_kind) : list pystr :=
  match k with
  | Resume => [py "简历"; py "CV"; py "resume"]
  | Interview => [py "面试"; py "interview"; py "笔试"]
  | Strategy => [py "策略"; py "技巧"; py "方法"]
  | Skills => [py "技能"; py "能力"; py "项目"]
  end.

(** [any(kw in line for kw in kws)] *)
Definition any_in (kws : list pystr) (line : pystr) : bool :=
  existsb (fun kw => py_contains kw line) kws.

(** The local dictionary [advice]. *)
Record job_advice : Type := mk_advice {
  a_resume : list pystr;
  a_interview : list pystr;
  a_strategy : list pystr;
  a_skills : list pystr
}.

(** [advice[k]] *)
Definition advice_of (a : job_advice) (k : advice_kind) : list pystr :=
  match k with
  | Resume => a_resume a
  | Interview => a_interview a
  | Strategy => a_strategy a
  | Skills => a_skills a
  end.

(** One iteration of [for line in lines]. *)
Definition advice_step (advice : job_advice) (line : pystr) : job_advice :=
  let line := py_strip line in
  if (length line =? 0)%nat || (length line <? 10)%nat then advice
  else if any_in (advice_keywords Resume) line then
    mk_advice (a_resume advice ++ [line]) (a_interview advice)
              (a_strategy advice) (a_skills advice)
  else if any_in (advice_keywords Interview) line then
    mk_advice (a_resume advice) (a_interview advice ++ [line])
              (a_strategy advice) (a_skills advice)
  else if any_in (advice_keywords Strategy) line then
    mk_advice (a_resume advice) (a_interview advice)
              (a_strategy advice ++ [line]) (a_skills advice)
  else if any_in (advice_keywords Skills) line then
    mk_advice (a_resume advice) (a_interview advice)
              (a_strategy advice) (a_skills advice ++ [line])
  else advice.

Definition extract_job_advice (content : pystr) : job_advice :=
  let lines := py_split_sep [0x0A] content in
  foldl advice_step (mk_advice [] [] [] []) lines.

(** ** [crawlers/utils.py]: the retry loop of [CrawlerUtils.safe_request] *)

(** What [requests.request] followed by [raise_for_status] does: return a
    response, raise a [RequestException], or raise something else. *)
Inductive outcome (R : Type) : Type :=
| Responded (r : R)
| RequestFailed
| OtherError (e : exn).
Arguments Responded {R} r.
Arguments RequestFailed {R}.
Arguments OtherError {R} e.

(** What the loop does to the world, in order. *)
Inductive event : Type :=
| Sleep
| Request.

(** The [for attempt in range(self.max_retries)] loop, for an instance
    whose [request_interval] is a pair of numbers.  [net attempt] is the
    outcome of the request of that attempt, [log] the sleeps and requests
    made so far. *)
Fixpoint request_loop {R} (net : nat -> outcome R) (max_retries : Z)
    (attempts : list nat) (log : list event) : list event * result (option R) :=
  match attempts with
  | [] => (log, Ok None)
  | attempt :: rest =>
      let log := if (0 <? attempt)%nat then log ++ [Sleep] else log in
      let log := log ++ [Request] in
      match net attempt with
      | Responded r => (log ++ [Sleep], Ok (Some r))
      | RequestFailed =>
          if (Z.of_nat attempt =? max_retries - 1)%Z then (log, Ok None)
          else request_loop net max_retries rest log
      | OtherError e => (log, Raise e)
      end
  end.

Definition safe_request {R} (net : nat -> outcome R) (max_retries : Z)
    : list event * result (option R) :=
  request_loop net max_retries (seq 0 (Z.to_nat max_retries)) [].

(** ** Vocabulary *)

(** The key a stripped line is filed under. *)
Definition advice_kind_of (line : pystr) : option advice_kind :=
  if (length line <? 10)%nat then None
  else List.find (fun k => any_in (advice_keywords k) line) advice_kinds.

(** The stripped line [line] is filed under [k]. *)
Definition filed (k : advice_kind) (line : pystr) : bool :=
  bool_decide (advice_kind_of line = Some k).

(** Two [advice] dictionaries, one appended to the other key by key. *)
Definition add_advice (a b : job_advice) : job_advice :=
  mk_advice (a_resume a ++ a_resume b) (a_interview a ++ a_interview b)
            (a_strategy a ++ a_strategy b) (a_skills a ++ a_skills b).

(** The four lists as filters of the stripped lines. *)
Definition advice_filters (lines : list pystr) : job_advice :=
  mk_advice (List.filter (filed Resume) lines) (List.filter (filed Interview) lines)
            (List.filter (filed Strategy) lines) (List.filter (filed Skills) lines).

(** The events of one attempt up to its request. *)
Definition attempt_events (attempt : nat) : list event :=
  if (0 <? attempt)%nat then [Sleep; Request] else [Request].

(** The events of the attempts [first], [first + 1], ..., [last]. *)
Definition events_between (first last : nat) : list event :=
  concat (map attempt_events (seq first (S last - first))).

(** A network that fails twice and then answers. *)
Definition third_time_lucky (attempt : nat) : outcome nat :=
  if (attempt <? 2)%nat then RequestFailed else Responded attempt.

(* ================================================================== *)
(** * Part VI.  Facts about strings                                    *)
(* ================================================================== *)

(** ** The string operations on examples *)

Example py_split_ex :
  py_split (py "  a b" ++ [0xA0; 0x3000] ++ py "cd	e ") = [py "a"; py "b"; py "cd"; py "e"].
Proof. vm_compute. reflexivity. Qed.

Example py_literal_ex : py "本科" = [0x672C; 0x79D1].
Proof. vm_compute. reflexivity. Qed.

Example py_count_ex : py_count (py "aa") (py "aaaaa") = 2%nat.
Proof. reflexivity. Qed.

Example py_split_sep_ex :
  py_split_sep (py "--") (py "a--b----c") = [py "a"; py "b"; []; py "c"].
Proof. vm_compute. reflexivity. Qed.

Example str_of_Z_ex : str_of_Z (-42) = py "-42" /\ str_of_Z 0 = py "0".
Proof. vm_compute. auto. Qed.

Example isoformat_ex :
  isoformat (mk_datetime 2025 3 7 9 5 0 0) = py "2025-03-07T09:05:00"
  /\ isoformat (mk_datetime 2025 12 31 23 59 59 1200) = py "2025-12-31T23:59:59.001200".
Proof. vm_compute. auto. Qed.

Arguments is_space : simpl never.
Arguments py : simpl never.

Lemma word_cons c w :
  is_space c = false -> Forall (fun c => is_space c = false) w -> word (c :: w).
Proof. intros Hc Hw. split; [discriminate | by constructor]. Qed.

Lemma py_split_words s : Forall word (py_split s).
Proof.
  induction s as [|c s IH]; [constructor|].
  simpl. destruct (is_space c) eqn:Hc; [exact IH|].
  destruct s as [|c' s'].
  - constructor; [|constructor]. by apply word_cons.
  - destruct (is_space c') eqn:Hc'.
    + constructor; [by apply word_cons | exact IH].
    + destruct (py_split (c' :: s')) as [|w ws].
      * constructor; [|constructor]. by apply word_cons.
      * inversion IH as [|? ? [_ Hw] Hws]; subst.
        constructor; [by apply word_cons | exact Hws].
Qed.

Lemma py_split_cons c s :
  py_split (c :: s) =
  if is_space c then py_split s
  else match s with
       | [] => [[c]]
       | c' :: _ =>
           if is_space c' then [c] :: py_split s
           else match py_split s with
                | w :: ws => (c :: w) :: ws
                | [] => [[c]]
                end
       end.
Proof. reflexivity. Qed.

Lemma py_split_word_then_space w sp rest :
  word w -> is_space sp = true ->
  py_split (w ++ sp :: rest) = w :: py_split rest.
Proof.
  intros [Hne Hw] Hsp. induction w as [|c w IH]; [done|].
  inversion Hw as [|? ? Hc Hw']; subst.
  destruct w as [|c' w'].
  - simpl. by rewrite Hc, Hsp.
  - inversion Hw' as [|? ? Hc' _]; subst.
    change ((c :: c' :: w') ++ sp :: rest) with (c :: c' :: (w' ++ sp :: rest)).
    rewrite py_split_cons, Hc, Hc'.
    change (c' :: w' ++ sp :: rest) with ((c' :: w') ++ sp :: rest).
    rewrite IH; [done | discriminate | done].
Qed.

Lemma py_split_word w : word w -> py_split w = [w].
Proof.
  intros [Hne Hw]. induction w as [|c w IH]; [done|].
  inversion Hw as [|? ? Hc Hw']; subst.
  destruct w as [|c' w'].
  - simpl. by rewrite Hc.
  - inversion Hw' as [|? ? Hc' _]; subst.
    rewrite py_split_cons, Hc, Hc'.
    rewrite IH; [done | discriminate | done].
Qed.

Lemma is_space_SPACE : is_space SPACE = true.
Proof. reflexivity. Qed.

(** Splitting what [" ".join] made of words gives the words back. *)
Lemma py_split_join ws :
  Forall word ws -> py_split (py_join [SPACE] ws) = ws.
Proof.
  induction 1 as [|w ws Hw Hws IH]; [done|].
  destruct ws as [|w2 ws].
  - simpl. by apply py_split_word.
  - change (py_join [SPACE] (w :: w2 :: ws))
      with (w ++ SPACE :: py_join [SPACE] (w2 :: ws)).
    rewrite py_split_word_then_space by auto using is_space_SPACE.
    by rewrite IH.
Qed.

Lemma py_join_chars ws :
  Forall word ws ->
  Forall (fun c => is_space c = false \/ c = SPACE) (py_join [SPACE] ws).
Proof.
  induction 1 as [|w ws [_ Hw] Hws IH]; [constructor|].
  assert (Forall (fun c => is_space c = false \/ c = SPACE) w) as Hw'.
  { eapply Forall_impl; [exact Hw|]. simpl. auto. }
  destruct ws as [|w2 ws]; [exact Hw'|].
  change (py_join [SPACE] (w :: w2 :: ws))
    with (w ++ SPACE :: py_join [SPACE] (w2 :: ws)).
  apply Forall_app. split; [exact Hw'|]. constructor; auto.
Qed.

Lemma py_replace_space_id a s :
  is_space a = true ->
  Forall (fun c => is_space c = false \/ c = SPACE) s ->
  py_replace a SPACE s = s.
Proof.
  intros Ha. induction 1 as [|c s Hc Hs IH]; [done|].
  unfold py_replace in *. simpl. rewrite IH. f_equal.
  destruct (N.eqb_spec c a) as [->|]; [|done].
  destruct Hc as [Hc| ->]; [congruence | done].
Qed.

Lemma py_join_head ws :
  Forall word ws -> ws <> [] ->
  exists c s, py_join [SPACE] ws = c :: s /\ is_space c = false.
Proof.
  intros Hws Hne. destruct Hws as [|w ws [Hw Hcs] Hws]; [done|].
  destruct w as [|c w]; [done|]. inversion Hcs; subst.
  destruct ws; simpl; eauto.
Qed.

Lemma word_last w :
  word w -> exists s c, w = s ++ [c] /\ is_space c = false.
Proof.
  intros [Hne Hw]. destruct (exists_last Hne) as (s & c & ->).
  exists s, c. split; [done|].
  apply Forall_app in Hw as [_ Hc]. by inversion Hc.
Qed.

Lemma py_join_last ws :
  Forall word ws -> ws <> [] ->
  exists s c, py_join [SPACE] ws = s ++ [c] /\ is_space c = false.
Proof.
  induction 1 as [|w ws Hw Hws IH]; [done|]. intros _.
  destruct ws as [|w2 ws]; [by apply word_last|].
  destruct IH as (s & c & Hj & Hc); [done|].
  exists (w ++ SPACE :: s), c. split; [|done].
  change (py_join [SPACE] (w :: w2 :: ws))
    with (w ++ SPACE :: py_join [SPACE] (w2 :: ws)).
  rewrite Hj. by rewrite <- app_assoc.
Qed.

Lemma py_strip_join ws :
  Forall word ws -> py_strip (py_join [SPACE] ws) = py_join [SPACE] ws.
Proof.
  intros Hws. destruct ws as [|w ws]; [done|].
  destruct (py_join_head (w :: ws)) as (c & s & Hh & Hc); [done..|].
  destruct (py_join_last (w :: ws)) as (s' & c' & Hl & Hc'); [done..|].
  unfold py_strip, py_rstrip.
  assert (py_lstrip (py_join [SPACE] (w :: ws)) = py_join [SPACE] (w :: ws)) as ->.
  { rewrite Hh. simpl. by rewrite Hc. }
  rewrite Hl, rev_app_distr. simpl. rewrite Hc'.
  change (c' :: rev s') with ([c'] ++ rev s').
  by rewrite rev_app_distr, rev_involutive.
Qed.

Lemma normal_form_idem s : normal_form (normal_form s) = normal_form s.
Proof. unfold normal_form. by rewrite py_split_join by apply py_split_words. Qed.




(* ================================================================== *)
(** * Part VII.  The cleaning pipeline                                 *)
(* ================================================================== *)

Section CleaningPipeline.
Context `{RT : Runtime}.


Lemma normalize_job_seen job c :
  seen_hashes (_normalize_job job c).2 = seen_hashes c.
Proof. done. Qed.






(** ** The set of fingerprints only grows, and holds every record seen. *)






End CleaningPipeline.







(** ** The expiry check *)

Section Expiry.
Context `{RT : Runtime}.

Lemma parse_deadline_Some s fmts d :
  parse_deadline s fmts = Some d ->
  exists before fmt after,
    fmts = before ++ fmt :: after
    /\ Forall (fun f => strptime s f = None) before
    /\ strptime s fmt = Some d.
Proof.
  induction fmts as [|f fmts IH]; [done|]. simpl.
  destruct (strptime s f) as [d'|] eqn:Hf.
  - intros [= ->]. exists [], f, fmts. by split_and!.
  - intros (before & fmt & after & -> & Hb & Hp)%IH.
    exists (f :: before), fmt, after. split_and!; [done | by constructor | done].
Qed.

Lemma parse_deadline_None s fmts :
  Forall (fun f => strptime s f = None) fmts -> parse_deadline s fmts = None.
Proof. induction 1 as [|f fmts Hf _ IH]; [done|]. simpl. by rewrite Hf. Qed.

Lemma lex_lt_irrefl l : lex_lt l l = false.
Proof.
  induction l as [|x l IH]; [done|]. simpl.
  rewrite Z.ltb_irrefl, Z.eqb_refl. by rewrite IH.
Qed.

End Expiry.

(** C7.  [_is_expired] answers true only for a deadline string that one
    of the four formats parses, the formats being tried in the order
    [%Y-%m-%d], [%Y/%m/%d], [%Y-%m-%d %H:%M:%S], [%Y/%m/%d %H:%M:%S] and
    the first that parses being taken, and whose date is strictly before
    the current time.  A deadline that is absent or empty, or that no
    format parses, is not expired; the check always returns. *)
Theorem is_expired_only_when_parsed_past `{RT : Runtime}
    (deadline : value) (c : cleaner) :
  date_formats = [py "%Y-%m-%d"; py "%Y/%m/%d";
                  py "%Y-%m-%d %H:%M:%S"; py "%Y/%m/%d %H:%M:%S"]
  /\ ((_is_expired deadline c).1 = true ->
      exists s before fmt after d,
        deadline = VStr s
        /\ date_formats = before ++ fmt :: after
        /\ Forall (fun f => strptime s f = None) before
        /\ strptime s fmt = Some d
        /\ dt_lt d (clock (clock_reads c)) = true
        /\ d <> clock (clock_reads c))
  /\ (truthy deadline = false -> _is_expired deadline c = (false, c))
  /\ (forall job : record,
        job !! "deadline" = None -> _is_expired (get job "deadline") c = (false, c))
  /\ (forall s,
        deadline = VStr s ->
        Forall (fun f => strptime s f = None) date_formats ->
        _is_expired deadline c = (false, c)).
Proof.
  split_and!.
  - reflexivity.
  - unfold _is_expired. destruct (truthy deadline); cbn [negb]; [|discriminate].
    destruct deadline as [| | |s]; try discriminate.
    destruct (parse_deadline s date_formats) as [d|] eqn:Hp; [|discriminate].
    cbn [fst]. intros Hlt.
    destruct (parse_deadline_Some _ _ _ Hp) as (before & fmt & after & ? & ? & ?).
    exists s, before, fmt, after, d. split_and!; try done.
    intros ->. unfold dt_lt in Hlt. by rewrite lex_lt_irrefl in Hlt.
  - intros Hf. unfold _is_expired. by rewrite Hf.
  - intros job Hnone. unfold get. by rewrite Hnone.
  - intros s -> Hall. unfold _is_expired.
    destruct (negb (truthy (VStr s))); [done|].
    by rewrite (parse_deadline_None _ _ Hall).
Qed.

Lemma is_expired_only_when_parsed_past_witness :
  (@_is_expired sample_runtime (VStr (py "2025-12-31")) new_cleaner).1 = true
  /\ (exists s before fmt after d,
        VStr (py "2025-12-31") = VStr s
        /\ @date_formats = before ++ fmt :: after
        /\ Forall (fun f => sample_strptime s f = None) before
        /\ sample_strptime s fmt = Some d
        /\ dt_lt d (sample_clock 0) = true
        /\ d <> sample_clock 0)
  /\ @_is_expired sample_runtime (VStr []) new_cleaner = (false, new_cleaner)
  /\ @_is_expired sample_runtime (VStr (py "next Friday")) new_cleaner
     = (false, new_cleaner).
Proof.
  pose proof (@is_expired_only_when_parsed_past sample_runtime
                (VStr (py "2025-12-31")) new_cleaner) as (_ & Hexp & _).
  pose proof (@is_expired_only_when_parsed_past sample_runtime
                (VStr []) new_cleaner) as (_ & _ & Hempty & _).
  pose proof (@is_expired_only_when_parsed_past sample_runtime
                (VStr (py "next Friday")) new_cleaner) as (_ & _ & _ & _ & Hnone).
  assert ((@_is_expired sample_runtime (VStr (py "2025-12-31")) new_cleaner).1 = true)
    as Htrue by (vm_compute; reflexivity).
  split_and!.
  - exact Htrue.
  - exact (Hexp Htrue).
  - apply Hempty. reflexivity.
  - apply (Hnone (py "next Friday")); [reflexivity|].
    repeat constructor.
Defined.

(** ** Normalisation *)

Section Normalisation.

Lemma clean_text_normal v :
  _clean_text v = if truthy v then normal_form (str v) else [].
Proof.
  unfold _clean_text. destruct (truthy v); [|done]. cbn [negb].
  pose proof (py_split_words (str v)) as Hw.
  pose proof (py_join_chars _ Hw) as Hc.
  rewrite (py_replace_space_id 0xA0 _ eq_refl Hc).
  rewrite (py_replace_space_id 0x3000 _ eq_refl Hc).
  rewrite (py_replace_space_id 0x09 _ eq_refl Hc).
  by apply py_strip_join.
Qed.

Lemma clean_text_VStr s : _clean_text (VStr s) = normal_form s.
Proof. rewrite clean_text_normal. by destruct s. Qed.

Lemma clean_text_fixed v : _clean_text (VStr (_clean_text v)) = _clean_text v.
Proof.
  rewrite clean_text_VStr, clean_text_normal.
  destruct (truthy v); [apply normal_form_idem | done].
Qed.

Lemma first_mapped_In mapping s val :
  first_mapped mapping s = Some val -> val ∈ map snd mapping.
Proof.
  induction mapping as [|[k v] mapping IH]; [done|]. simpl.
  destruct (py_contains k s).
  - intros [= ->]. apply elem_of_cons. by left.
  - intros H. apply elem_of_cons. right. by apply IH.
Qed.

Lemma first_city_In cities location city :
  first_city cities location = Some city -> city ∈ cities.
Proof.
  induction cities as [|c cities IH]; [done|]. simpl.
  destruct (py_contains c location).
  - intros [= ->]. apply elem_of_cons. by left.
  - intros H. apply elem_of_cons. right. by apply IH.
Qed.

Ltac each_member H :=
  repeat (apply elem_of_cons in H as [->|H]);
  [.. | by apply elem_of_nil in H].

Lemma normalize_education_canonical v :
  _normalize_education v ∈ canonical_educations.
Proof.
  unfold _normalize_education.
  destruct (first_mapped edu_mapping (_clean_text v)) as [val|] eqn:Hm.
  - apply first_mapped_In in Hm. simpl in Hm.
    each_member Hm; vm_compute; set_solver.
  - case_bool_decide as Hin; [|vm_compute; set_solver].
    revert Hm. generalize dependent (_clean_text v). intros e Hin.
    unfold valid_educations in Hin.
    each_member Hin; first [by vm_compute | intros _; vm_compute; set_solver].
Qed.

Lemma normalize_education_fixed v :
  _normalize_education (VStr (_normalize_education v)) = _normalize_education v.
Proof.
  pose proof (normalize_education_canonical v) as Hin.
  revert Hin. generalize (_normalize_education v). intros e Hin.
  unfold canonical_educations in Hin.
  each_member Hin; vm_compute; reflexivity.
Qed.

Lemma major_city_fixed city :
  city ∈ major_cities ->
  _clean_text (VStr city) = city /\ first_city major_cities city = Some city.
Proof.
  intros Hin. unfold major_cities in Hin.
  each_member Hin; vm_compute; done.
Qed.

Lemma normalize_location_fixed v :
  _normalize_location (VStr (_clean_text (VStr (_normalize_location v))))
  = _normalize_location v.
Proof.
  unfold _normalize_location at 2 3.
  destruct (first_city major_cities (_clean_text v)) as [city|] eqn:Hc.
  - apply first_city_In in Hc.
    destruct (major_city_fixed city Hc) as [Ht Hf].
    unfold _normalize_location. by rewrite !Ht, Hf.
  - unfold _normalize_location. rewrite !clean_text_fixed. by rewrite Hc.
Qed.

End Normalisation.

Section NormalizeJob.
Context `{RT : Runtime}.

Lemma lookup_update_if_present f k (d : record) k' :
  update_if_present f k d !! k'
  = if decide (k = k') then (fun v => VStr (f v)) <$> d !! k' else d !! k'.
Proof.
  unfold update_if_present. destruct (decide (k = k')) as [->|Hne].
  - destruct (d !! k') eqn:Hd; [|by rewrite Hd].
    by rewrite lookup_insert_eq.
  - destruct (d !! k); [|done]. by rewrite lookup_insert_ne.
Qed.

Lemma normalize_job_lookup job c k :
  (_normalize_job job c).1 !! k
  = if decide (k = "cleaned_time"%string)
    then Some (VStr (isoformat (clock (clock_reads c))))
    else normalize_value k <$> job !! k.
Proof.
  unfold _normalize_job, text_fields, normalize_value. cbn [foldl fst].
  rewrite lookup_insert. rewrite !lookup_update_if_present.
  destruct (job !! k) as [v|] eqn:Hk;
    repeat (case_decide; simplify_eq; try done).
  exfalso. unfold text_fields in *. set_solver.
Qed.

Lemma normalize_value_fixed k v :
  normalize_value k (normalize_value k v) = normalize_value k v.
Proof.
  unfold normalize_value.
  destruct (decide (k = "location"%string));
    [by rewrite normalize_location_fixed|].
  destruct (decide (k = "education"%string));
    [by rewrite normalize_education_fixed|].
  destruct (bool_decide (k ∈ text_fields)); [by rewrite clean_text_fixed | done].
Qed.



End NormalizeJob.

Section CleanedRecords.
Context `{RT : Runtime}.



End CleanedRecords.


(** C5.  Normalising a normalised record changes nothing but the
    cleaning time stamp: the second result is the first with
    [cleaned_time] stamped again, so the two agree on every other
    field. *)
Theorem normalize_job_idempotent `{RT : Runtime} (job : record) (c c' : cleaner) :
  let once := (_normalize_job job c).1 in
  let twice := (_normalize_job once c').1 in
  twice = <["cleaned_time" := VStr (isoformat (clock (clock_reads c')))]> once
  /\ delete "cleaned_time" twice = delete "cleaned_time" once.
Proof.
  intros once twice.
  assert (twice = <["cleaned_time" := VStr (isoformat (clock (clock_reads c')))]> once)
    as Heq.
  { apply map_eq. intros k. subst once twice.
    rewrite lookup_insert, !normalize_job_lookup.
    destruct (decide (k = "cleaned_time"%string)) as [->|Hk].
    - by rewrite decide_True.
    - rewrite decide_False by done.
      destruct (job !! k); [|done]. simpl. by rewrite normalize_value_fixed. }
  split; [exact Heq|]. rewrite Heq. apply delete_insert_eq.
Qed.

(** The scenarios of the specification, run. *)
Example acme_invalid_url :
  let st := @clean_jobs sample_runtime [acme_job (py "not a url")] new_cleaner in
  ls_cleaned st = [] /\ ls_stats st = mk_stats 1 0 1 0 0 0.
Proof. vm_compute. auto. Qed.

Example acme_bachelor :
  exists r,
    ls_cleaned (@clean_jobs sample_runtime [acme_bachelor_job] new_cleaner) = [r]
    /\ r !! "education"%string = Some (VStr (py "本科"))
    /\ r !! "cleaned_time"%string = Some (VStr (py "2026-01-01T00:00:00")).
Proof. eexists. split; [vm_compute; reflexivity|]. vm_compute. auto. Qed.

(* ================================================================== *)
(** * Part VIII.  The dataset split                                    *)
(* ================================================================== *)

Local Close Scope N_scope.
Local Open Scope Q_scope.

Section Slices.
Context {A : Type}.
Implicit Types l : list A.







End Slices.




Section Split.
Context `{RT : Runtime}.


End Split.


Local Close Scope Q_scope.
Local Open Scope N_scope.


(** With a negative ratio Python counts the slice bound from the end of
    the list, and the three slices no longer partition it. *)
Example split_negative_ratio :
  let four := [PVal (VInt 1); PVal (VInt 2); PVal (VInt 3); PVal (VInt 4)] in
  let b := split_samples four (-1 # 2)%Q (1 # 2)%Q in
  train_data b = [PVal (VInt 1); PVal (VInt 2)]
  /\ eval_data b = []
  /\ test_data b = four.
Proof. vm_compute. auto. Qed.

(* ================================================================== *)
(** * Part IX.  The prompt template                                    *)
(* ================================================================== *)

Lemma render_text instruction response :
  render instruction response
  = Ok (INST_OPEN ++ SPACE :: instruction ++ SPACE :: INST_CLOSE
          ++ SPACE :: response ++ END_TAG).
Proof. vm_compute. reflexivity. Qed.

Section Occurrences.
Variable sub : pystr.

Lemma py_startswith_app x : py_startswith sub (sub ++ x) = true.
Proof.
  induction sub as [|a p IH]; [done|]. simpl. by rewrite N.eqb_refl, IH.
Qed.

(** A match that begins in [x] does not reach over a code point that
    [sub] does not contain. *)
Lemma py_startswith_stays c x y :
  c ∉ sub -> py_startswith sub (x ++ c :: y) = true -> py_startswith sub x = true.
Proof.
  revert x. induction sub as [|a p IH]; intros x Hc; [done|].
  destruct x as [|b x]; simpl.
  - intros [Hac _]%andb_true_iff. apply N.eqb_eq in Hac as ->.
    exfalso. apply Hc. by left.
  - intros [Hab Hp]%andb_true_iff. rewrite Hab. simpl.
    apply IH; [|done]. intros Hin. apply Hc. by right.
Qed.

Lemma py_contains_false_drop s k :
  py_contains sub s = false -> py_startswith sub (drop k s) = false.
Proof.
  revert k. induction s as [|c s IH]; intros k.
  - simpl. rewrite orb_false_r. by destruct k.
  - cbn [py_contains]. intros [H0 Hs]%orb_false_iff.
    destruct k as [|k]; [done|]. by apply IH.
Qed.

Lemma clear_of_cons c before after :
  clear_of sub (c :: before) after ->
  py_startswith sub (c :: before ++ after) = false /\ clear_of sub before after.
Proof.
  intros H. split.
  - apply (H 0%nat). simpl. lia.
  - intros k Hk. apply (H (S k)). simpl. lia.
Qed.

Lemma clear_of_app b1 b2 after :
  clear_of sub b1 (b2 ++ after) -> clear_of sub b2 after -> clear_of sub (b1 ++ b2) after.
Proof.
  intros H1 H2 k Hk. rewrite length_app in Hk.
  destruct (Nat.lt_ge_cases k (length b1)) as [Hlt|Hge].
  - rewrite drop_app_le by lia. rewrite <- app_assoc. by apply H1.
  - rewrite drop_app_ge by done. apply H2. lia.
Qed.

Lemma clear_of_free c before after :
  py_contains sub before = false -> c ∉ sub -> clear_of sub before (c :: after).
Proof.
  intros Hfree Hc k _.
  destruct (py_startswith sub (drop k before ++ c :: after)) eqn:Hs; [|done].
  apply py_startswith_stays in Hs; [|done].
  by rewrite py_contains_false_drop in Hs.
Qed.

Lemma clear_of_free_end before :
  py_contains sub before = false -> clear_of sub before [].
Proof.
  intros Hfree k _. rewrite app_nil_r. by apply py_contains_false_drop.
Qed.

Lemma py_count_clear before after :
  clear_of sub before after ->
  py_count_from 0 sub (before ++ after) = py_count_from 0 sub after.
Proof.
  induction before as [|c before IH]; [done|].
  intros [H0 H]%clear_of_cons.
  change ((c :: before) ++ after) with (c :: before ++ after).
  cbn [py_count_from]. rewrite H0. by apply IH.
Qed.

Lemma py_split_clear cur before after :
  clear_of sub before after ->
  py_split_from 0 sub cur (before ++ after)
  = py_split_from 0 sub (rev before ++ cur) after.
Proof.
  revert cur. induction before as [|c before IH]; intros cur; [done|].
  intros [H0 H]%clear_of_cons.
  change ((c :: before) ++ after) with (c :: before ++ after).
  cbn [py_split_from]. rewrite H0. rewrite IH by done.
  simpl. by rewrite <- app_assoc.
Qed.

Lemma py_endswith_app x : py_endswith sub (x ++ sub) = true.
Proof.
  unfold py_endswith. rewrite rev_app_distr.
  clear. generalize (rev x). generalize (rev sub). intros p y.
  induction p as [|a p IH]; [done|]. simpl. by rewrite N.eqb_refl, IH.
Qed.

Lemma py_removesuffix_app x : py_removesuffix sub (x ++ sub) = x.
Proof.
  unfold py_removesuffix. rewrite py_endswith_app.
  rewrite length_app, Nat.add_sub. apply take_app_length.
Qed.

Lemma py_removeprefix_app x : py_removeprefix sub (sub ++ x) = x.
Proof.
  unfold py_removeprefix. rewrite py_startswith_app. apply drop_app_length.
Qed.

End Occurrences.

Section Template.

Lemma SPACE_not_in_close : SPACE ∉ INST_CLOSE.
Proof. vm_compute. set_solver. Qed.

Lemma lt_not_in_close : (0x3C : N) ∉ INST_CLOSE.
Proof. vm_compute. set_solver. Qed.

(** No occurrence of the closing tag begins in the opening tag or in
    the blank after it. *)
Lemma open_clear rest : clear_of INST_CLOSE (INST_OPEN ++ [SPACE]) rest.
Proof.
  intros k Hk.
  do 10 (destruct k as [|k]; [vm_compute; reflexivity|]).
  vm_compute in Hk. lia.
Qed.

Lemma blank_clear rest : clear_of INST_CLOSE [SPACE] rest.
Proof.
  intros k Hk. destruct k as [|k]; [vm_compute; reflexivity|].
  simpl in Hk. lia.
Qed.

Lemma py_count_at_close rest :
  py_count_from 0 INST_CLOSE (INST_CLOSE ++ rest)
  = S (py_count_from 0 INST_CLOSE rest).
Proof. vm_compute. reflexivity. Qed.

Lemma py_split_at_close cur rest :
  py_split_from 0 INST_CLOSE cur (INST_CLOSE ++ rest)
  = rev cur :: py_split_from 0 INST_CLOSE [] rest.
Proof.
  change (py_split_from 0 INST_CLOSE cur (INST_CLOSE ++ rest))
    with (rev cur :: py_split_from 0 INST_CLOSE [] rest).
  reflexivity.
Qed.

Lemma py_count_end_tag : py_count_from 0 INST_CLOSE END_TAG = 0%nat.
Proof. vm_compute. reflexivity. Qed.

Lemma END_TAG_cons : END_TAG = 0x3C :: py "/s>".
Proof. vm_compute. reflexivity. Qed.

(** The number of closing tags in a rendered text is one more than the
    numbers in the instruction and in the response, when neither holds
    one. *)
Lemma py_count_rendered instruction response :
  py_contains INST_CLOSE instruction = false ->
  py_contains INST_CLOSE response = false ->
  py_count INST_CLOSE
    (INST_OPEN ++ SPACE :: instruction ++ SPACE :: INST_CLOSE
       ++ SPACE :: response ++ END_TAG) = 1%nat.
Proof.
  intros Hi Hr. unfold py_count.
  change (INST_OPEN ++ SPACE :: ?x) with ((INST_OPEN ++ [SPACE]) ++ x).
  rewrite py_count_clear by apply open_clear.
  rewrite py_count_clear
    by (apply clear_of_free; [done | apply SPACE_not_in_close]).
  change (SPACE :: INST_CLOSE ++ ?x) with ([SPACE] ++ INST_CLOSE ++ x).
  rewrite py_count_clear by apply blank_clear.
  rewrite py_count_at_close. f_equal.
  change (SPACE :: response ++ END_TAG) with ([SPACE] ++ response ++ END_TAG).
  rewrite py_count_clear by apply blank_clear.
  rewrite END_TAG_cons.
  rewrite py_count_clear
    by (apply clear_of_free; [done | apply lt_not_in_close]).
  rewrite <- END_TAG_cons. apply py_count_end_tag.
Qed.

Lemma py_split_body instruction response :
  py_contains INST_CLOSE instruction = false ->
  py_contains INST_CLOSE response = false ->
  py_split_sep INST_CLOSE
    (SPACE :: instruction ++ SPACE :: INST_CLOSE ++ SPACE :: response)
  = [SPACE :: instruction ++ [SPACE]; SPACE :: response].
Proof.
  intros Hi Hr. unfold py_split_sep.
  change (SPACE :: instruction ++ ?x) with ([SPACE] ++ instruction ++ x).
  rewrite py_split_clear by apply blank_clear.
  rewrite py_split_clear
    by (apply clear_of_free; [done | apply SPACE_not_in_close]).
  change (SPACE :: INST_CLOSE ++ ?x) with ([SPACE] ++ INST_CLOSE ++ x).
  rewrite py_split_clear by apply blank_clear.
  rewrite py_split_at_close. f_equal.
  - rewrite !rev_app_distr. simpl. by rewrite rev_involutive.
  - change (SPACE :: response) with ([SPACE] ++ response).
    rewrite py_split_clear by apply blank_clear.
    rewrite <- (app_nil_r response) at 1.
    rewrite py_split_clear by (by apply clear_of_free_end).
    simpl. by rewrite rev_app_distr, rev_involutive.
Qed.

Lemma parse_rendered instruction response :
  py_contains INST_CLOSE instruction = false ->
  py_contains INST_CLOSE response = false ->
  parse_sample
    (INST_OPEN ++ SPACE :: instruction ++ SPACE :: INST_CLOSE
       ++ SPACE :: response ++ END_TAG)
  = Some (instruction, response).
Proof.
  intros Hi Hr. unfold parse_sample. cbv zeta.
  rewrite py_removeprefix_app.
  assert (SPACE :: instruction ++ SPACE :: INST_CLOSE ++ SPACE :: response ++ END_TAG
          = (SPACE :: instruction ++ SPACE :: INST_CLOSE ++ SPACE :: response)
              ++ END_TAG) as ->.
  { cbn [app]. rewrite <- app_assoc. cbn [app]. rewrite <- app_assoc.
    reflexivity. }
  rewrite py_removesuffix_app, py_split_body by done.
  change (SPACE :: instruction ++ [SPACE]) with ([SPACE] ++ instruction ++ [SPACE]).
  change (SPACE :: response) with ([SPACE] ++ response).
  by rewrite !py_removeprefix_app, py_removesuffix_app.
Qed.

End Template.

(** C6, as the code has it.  When neither the instruction nor the
    response contains ["[/INST]"], the text rendered through the Mistral
    template contains the tag exactly once, and dropping the opening and
    the end tag and splitting on the closing tag gives the instruction
    and the response back. *)
Theorem render_round_trip (instruction response : pystr) :
  py_contains INST_CLOSE instruction = false ->
  py_contains INST_CLOSE response = false ->
  exists text,
    render instruction response = Ok text
    /\ py_count INST_CLOSE text = 1%nat
    /\ parse_sample text = Some (instruction, response).
Proof.
  intros Hi Hr. eexists. split; [apply render_text|].
  split; [by apply py_count_rendered | by apply parse_rendered].
Qed.

Lemma render_round_trip_witness :
  py_contains INST_CLOSE (py "x") = false
  /\ py_contains INST_CLOSE (py "y") = false
  /\ exists text,
       render (py "x") (py "y") = Ok text
       /\ py_count INST_CLOSE text = 1%nat
       /\ parse_sample text = Some (py "x", py "y").
Proof.
  split; [reflexivity|]. split; [reflexivity|].
  apply (render_round_trip (py "x") (py "y")); reflexivity.
Defined.

(** C6, as it is stated, fails: an instruction that quotes the closing
    tag is rendered as it is, the text then holds the tag twice, and
    splitting on the tag gives three pieces. *)
Lemma render_tag_twice :
  let instruction := py "what does [/INST] mean?" in
  let response := py "it closes the instruction" in
  exists text,
    render instruction response = Ok text
    /\ text = py "<s>[INST] what does [/INST] mean? [/INST] it closes the instruction</s>"
    /\ py_count INST_CLOSE text = 2%nat
    /\ length (py_split_sep INST_CLOSE text) = 3%nat
    /\ parse_sample text = None.
Proof. eexists. split; [vm_compute; reflexivity|]. vm_compute. auto. Qed.

(* ================================================================== *)
(** * Part X.  The validator                                           *)
(* ================================================================== *)

(** ** Task balance *)

Section TaskBalance.

Lemma get_text_well_formed item s :
  text_of item = Some s -> get_text item = Ok (PVal (VStr s)).
Proof.
  destruct item as [| |d]; try done. unfold text_of, get_text, obj_get.
  destruct (d !! "text"%string) as [[[| | |s']| |]|]; try done.
  - by intros [= ->].
  - by intros [= <-].
Qed.

Lemma matches_str t s : matches t (PVal (VStr s)) = Ok (has_marker t s).
Proof.
  unfold matches, has_marker, text_has. cbn [result_bind].
  by destruct (py_contains (markers t).1 s).
Qed.

(** The first loop returns, and appends only duplicate warnings. *)
Lemma duplicates_loop_ok items :
  Forall well_formed_item items ->
  forall acc i v,
  exists w r,
    v_for (fun (acc : list value * nat) i item =>
             let '(seen_texts, duplicates) := acc in
             do text <- v_lift (get_text item);
             do dup <- v_lift (seen_before seen_texts text);
             if dup then
               add_warning (DuplicateText i) ;; v_ret (seen_texts, S duplicates)
             else
               do v <- v_lift (hashable text);
               v_ret (seen_texts ++ [v], duplicates))
          acc i items v
    = (mk_validator (errors v) (warnings v ++ w), Ok r)
    /\ Forall (fun m => is_task_warning m = false) w.
Proof.
  induction 1 as [|item items [s Hs] _ IH]; intros [seen dups] i v.
  - exists [], (seen, dups). cbn. rewrite app_nil_r. by destruct v.
  - cbn [v_for]. unfold v_bind at 1. unfold v_bind at 1, v_lift at 1.
    rewrite (get_text_well_formed _ _ Hs).
    unfold v_bind at 1, v_lift at 1. cbn [seen_before].
    destruct (existsb (py_eq (VStr s)) seen).
    + unfold v_bind at 1, add_warning at 1, v_ret at 1.
      match goal with |- context [v_for ?b ?a ?j items ?st] =>
        destruct (IH a j st) as (w & r & -> & Hw) end.
      exists (DuplicateText i :: w), r. cbn [errors warnings].
      rewrite <- app_assoc. split; [done|]. by constructor.
    + unfold v_bind at 1, v_lift at 1. cbn [hashable]. unfold v_ret at 1.
      match goal with |- context [v_for ?b ?a ?j items ?st] =>
        destruct (IH a j st) as (w & r & -> & Hw) end.
      by exists w, r.
Qed.

Lemma task_count_cons t item items s :
  text_of item = Some s ->
  task_count t (item :: items)
  = ((if has_marker t s then 1 else 0) + task_count t items)%nat.
Proof.
  intros Hs. unfold task_count. cbn [List.filter].
  unfold item_matches at 1. rewrite Hs. by destruct (has_marker t s).
Qed.

(** The second loop returns the counts and appends nothing. *)
Lemma counting_loop_ok items :
  Forall well_formed_item items ->
  forall k i v,
    v_for (fun (k : keyword_counts) (_ : nat) item =>
             do text <- v_lift (get_text item);
             do b1 <- v_lift (matches UserInputParsing text);
             let k := if b1 then mk_counts (S (n_parsing k)) (n_matching k) (n_advice k)
                      else k in
             do b2 <- v_lift (matches JobMatching text);
             let k := if b2 then mk_counts (n_parsing k) (S (n_matching k)) (n_advice k)
                      else k in
             do b3 <- v_lift (matches AdviceGeneration text);
             let k := if b3 then mk_counts (n_parsing k) (n_matching k) (S (n_advice k))
                      else k in
             v_ret k)
          k i items v
    = (v, Ok (add_counts k items)).
Proof.
  induction 1 as [|item items [s Hs] _ IH]; intros k i v.
  - cbn. unfold add_counts, task_count. cbn. rewrite !Nat.add_0_r. by destruct k.
  - cbn [v_for]. unfold v_bind at 1. unfold v_bind at 1, v_lift at 1.
    rewrite (get_text_well_formed _ _ Hs).
    unfold v_bind at 1, v_lift at 1. rewrite matches_str.
    unfold v_bind at 1, v_lift at 1. rewrite matches_str.
    unfold v_bind at 1, v_lift at 1. rewrite matches_str.
    unfold v_ret at 1. rewrite IH. f_equal. f_equal.
    unfold add_counts. rewrite !(task_count_cons _ _ _ _ Hs).
    destruct (has_marker UserInputParsing s), (has_marker JobMatching s),
      (has_marker AdviceGeneration s); cbn; f_equal; lia.
Qed.

Lemma task_loop_ok counts v :
  (let total := (n_parsing counts + n_matching counts + n_advice counts)%nat in
   if (0 <? total)%nat then
     foldr (fun t rest =>
              let ratio := (Qnat (count_of counts t) / Qnat total)%Q in
              v_when (negb (Qle_bool (15 # 100) ratio))
                     (add_warning (Underrepresented t ratio)) ;;
              rest)
           (v_ret tt) tasks
   else v_ret tt) v
  = (mk_validator (errors v) (warnings v ++ task_warnings counts), Ok tt).
Proof.
  cbv zeta. unfold task_warnings.
  destruct (0 <? n_parsing counts + n_matching counts + n_advice counts)%nat.
  - unfold tasks. cbn [foldr map concat].
    unfold v_bind, v_when, add_warning, v_ret.
    repeat match goal with |- context [negb (Qle_bool ?a ?b)] =>
      destruct (negb (Qle_bool a b)) end;
      cbn [errors warnings app]; rewrite <- ?app_assoc, ?app_nil_r;
      by destruct v.
  - unfold v_ret. rewrite app_nil_r. by destruct v.
Qed.

Lemma task_warnings_elem k t ratio :
  Underrepresented t ratio ∈ task_warnings k
  <-> let total := (n_parsing k + n_matching k + n_advice k)%nat in
      (0 < total)%nat
      /\ (Qnat (count_of k t) / Qnat total < 15 # 100)%Q
      /\ ratio = (Qnat (count_of k t) / Qnat total)%Q.
Proof.
  cbv zeta. unfold task_warnings.
  set (total := (n_parsing k + n_matching k + n_advice k)%nat).
  destruct (0 <? total)%nat eqn:Htot.
  - apply Nat.ltb_lt in Htot. rewrite list_elem_of_In, in_concat. split.
    + intros (l & Hl & Hin). apply in_map_iff in Hl as (t' & <- & _).
      destruct (Qle_bool (15 # 100) (Qnat (count_of k t') / Qnat total)) eqn:Hq;
        cbn [negb] in Hin; [done|].
      destruct Hin as [Heq|[]]. injection Heq as -> <-.
      split_and!; [done| |done].
      apply Qnot_le_lt. intros Hle. apply Qle_bool_iff in Hle. congruence.
    + intros (_ & Hlt & ->).
      exists [Underrepresented t (Qnat (count_of k t) / Qnat total)].
      split; [|by left].
      apply in_map_iff. exists t. split.
      * destruct (Qle_bool (15 # 100) (Qnat (count_of k t) / Qnat total)) eqn:Hq;
          [|done].
        apply Qle_bool_iff in Hq. by apply Qlt_not_le in Hlt.
      * unfold tasks. destruct t; simpl; auto.
  - apply Nat.ltb_ge in Htot. split.
    + by intros ?%elem_of_nil.
    + intros (? & _). lia.
Qed.

End TaskBalance.

Lemma count_of_add_counts t items :
  count_of (add_counts (mk_counts 0 0 0) items) t = task_count t items.
Proof. by destruct t. Qed.

(** C9.  On a dataset whose items are dictionaries with a string (or no)
    ["text"], the quality check returns and appends, besides duplicate
    warnings, one warning per task whose share is below 15%: a warning
    naming task [t] is produced exactly when the sum of the three
    keyword-match counts is positive and the count of [t] divided by that
    sum is less than 0.15, the count of a task being the number of
    samples whose text holds one of its two marker phrases. *)
Theorem check_content_quality_task_balance
    (data : pyobj) (items : list pyobj) (v : validator) :
  iter_items data = Ok items ->
  Forall well_formed_item items ->
  exists new,
    _check_content_quality data v
    = (mk_validator (errors v) (warnings v ++ new), Ok tt)
    /\ forall t,
         (exists ratio, Underrepresented t ratio ∈ new)
         <-> ((0 < match_total items)%nat
              /\ (Qnat (task_count t items) / Qnat (match_total items) < 15 # 100)%Q).
Proof.
  intros Hitems Hwf. unfold _check_content_quality.
  unfold v_bind at 1, v_lift at 1. rewrite Hitems.
  destruct (duplicates_loop_ok items Hwf ([], 0%nat) 0%nat v)
    as (w & r & Hloop & Hw).
  unfold v_bind at 1. rewrite Hloop. cbv zeta.
  set (dw := if (0 <? r.2)%nat then [TotalDuplicates r.2] else []).
  assert (Forall (fun m => is_task_warning m = false) (w ++ dw)) as Hwd.
  { apply Forall_app. split; [done|]. subst dw.
    destruct (0 <? r.2)%nat; repeat constructor. }
  exists ((w ++ dw) ++ task_warnings (add_counts (mk_counts 0 0 0) items)).
  split.
  - unfold v_bind at 1.
    assert (v_when (0 <? r.2)%nat (add_warning (TotalDuplicates r.2))
              (mk_validator (errors v) (warnings v ++ w))
            = (mk_validator (errors v) (warnings v ++ w ++ dw), Ok tt)) as ->.
    { subst dw. unfold v_when, add_warning, v_ret.
      destruct (0 <? r.2)%nat; cbn [errors warnings].
      - by rewrite <- app_assoc.
      - by rewrite app_nil_r. }
    unfold v_bind at 1. rewrite (counting_loop_ok items Hwf).
    etransitivity; [apply task_loop_ok|]. cbn [errors warnings].
    by rewrite <- !app_assoc.
  - intros t. split.
    + intros (ratio & Hin). apply elem_of_app in Hin as [Hin|Hin].
      * exfalso. rewrite Forall_forall in Hwd. by specialize (Hwd _ Hin).
      * apply task_warnings_elem in Hin. cbv zeta in Hin.
        rewrite !count_of_add_counts in Hin. cbn in Hin.
        destruct Hin as (Htot & Hlt & _). done.
    + intros (Htot & Hlt). eexists. apply elem_of_app. right.
      apply task_warnings_elem. cbv zeta. rewrite !count_of_add_counts.
      cbn. split_and!; [exact Htot | exact Hlt | reflexivity].
Qed.

Lemma check_content_quality_task_balance_witness :
  iter_items (PList balance_items) = Ok balance_items
  /\ Forall well_formed_item balance_items
  /\ match_total balance_items = 2%nat
  /\ task_count AdviceGeneration balance_items = 0%nat
  /\ exists new,
       _check_content_quality (PList balance_items) new_validator
       = (mk_validator [] new, Ok tt)
       /\ (exists ratio, Underrepresented AdviceGeneration ratio ∈ new).
Proof.
  assert (Forall well_formed_item balance_items) as Hwf.
  { repeat constructor; vm_compute; eexists; reflexivity. }
  destruct (check_content_quality_task_balance (PList balance_items)
              balance_items new_validator eq_refl Hwf) as (new & Hrun & Hiff).
  split_and!; [reflexivity | exact Hwf | vm_compute; reflexivity
              | vm_compute; reflexivity |].
  exists new. split; [exact Hrun|].
  apply Hiff. split; [vm_compute; lia | vm_compute; reflexivity].
Defined.

(** ** Passing *)

Lemma v_bind_Ok {A B} (m : V A) (k : A -> V B) s s' b :
  v_bind m k s = (s', Ok b) ->
  exists a s1, m s = (s1, Ok a) /\ k a s1 = (s', Ok b).
Proof.
  unfold v_bind. destruct (m s) as [s1 [a|e]]; [|done]. intros H. by exists a, s1.
Qed.

Lemma validate_body_passed loaded s0 s passed :
  validate_body loaded s0 = (s, Ok passed) ->
  passed = (length (errors s) =? 0)%nat.
Proof.
  unfold validate_body. intros (data & s1 & _ & H)%v_bind_Ok.
  destruct (negb (obj_truthy data)).
  - apply v_bind_Ok in H as ([] & s2 & Hadd & Hret).
    unfold add_error in Hadd. injection Hadd as <-.
    unfold v_ret in Hret. injection Hret as <- <-.
    cbn [errors]. rewrite length_app. cbn [length]. by rewrite Nat.add_1_r.
  - apply v_bind_Ok in H as ([] & s2 & _ & H).
    apply v_bind_Ok in H as ([] & s3 & _ & H).
    apply v_bind_Ok in H as ([] & s4 & _ & H).
    apply v_bind_Ok in H as ([] & s5 & _ & H).
    by injection H as <- <-.
Qed.

(** C8.  [validate_dataset] returns [passed = true] if and only if the
    error list it returns is empty: [passed] is the emptiness of
    [errors], whatever [warnings] holds.  On the dataset that consists of
    the one sample [<s>[INST] x [/INST] y</s>] it passes, with no error
    and with the warning that the dataset has fewer than 1000 samples
    (after the warning that the text is short). *)
Theorem validate_dataset_passed_iff_no_errors
    (loaded : result pyobj) (self : validator) :
  let r := validate_dataset loaded self in
  (r.1 = true <-> errors r.2 = [])
  /\ r.1 = (length (errors r.2) =? 0)%nat
  /\ validate_dataset (Ok one_sample) self
     = (true, mk_validator [] [TextTooShort 0 25; DatasetSmall 1]).
Proof.
  cbv zeta.
  assert ((validate_dataset loaded self).1
          = (length (errors (validate_dataset loaded self).2) =? 0)%nat) as Heq.
  { unfold validate_dataset.
    destruct (validate_body loaded new_validator) as [s [passed|e]] eqn:Hbody.
    - cbn [fst snd]. by apply (validate_body_passed loaded new_validator).
    - cbn [fst snd errors]. rewrite length_app. cbn [length].
      by rewrite Nat.add_1_r. }
  split_and!.
  - rewrite Heq. rewrite Nat.eqb_eq. split.
    + by intros ?%nil_length_inv.
    + by intros ->.
  - exact Heq.
  - vm_compute. reflexivity.
Qed.

(** An item that is not a dictionary: the format check reports it, the
    completeness check raises on it, and the run fails with both
    errors. *)
Example validate_dataset_not_a_dict :
  validate_dataset (Ok (PList [PVal (VInt 7)])) new_validator
  = (false, mk_validator [NotADict 0; FailedToLoad AttributeError] []).
Proof. vm_compute. reflexivity. Qed.

Example validate_dataset_empty :
  validate_dataset (Ok (PList [])) new_validator
  = (false, mk_validator [DatasetEmpty] []).
Proof. vm_compute. reflexivity. Qed.

Example validate_dataset_unreadable :
  validate_dataset (Raise OSError) new_validator
  = (false, mk_validator [FailedToLoad OSError] []).
Proof. vm_compute. reflexivity. Qed.

(* ================================================================== *)
(** * Part XI.  Runs of the cleaning pipeline                          *)
(* ================================================================== *)

Section CleaningRuns.
Context `{RT : Runtime}.










End CleaningRuns.






(** ** The normal forms of the fields *)

Ltac each_of H :=
  repeat (apply elem_of_cons in H as [->|H]);
  [.. | by apply elem_of_nil in H].

Section NormalisationShape.

Lemma first_city_Some cities location city :
  first_city cities location = Some city ->
  city ∈ cities /\ py_contains city location = true.
Proof.
  induction cities as [|c cities IH]; [done|]. simpl.
  destruct (py_contains c location) eqn:Hc.
  - intros [= ->]. split; [by left | done].
  - intros H. destruct (IH H). split; [by right | done].
Qed.

Lemma first_city_None cities location :
  first_city cities location = None ->
  Forall (fun city => py_contains city location = false) cities.
Proof.
  induction cities as [|c cities IH]; [constructor|]. simpl.
  destruct (py_contains c location) eqn:Hc; [done|].
  intros H. constructor; [done | by apply IH].
Qed.

Lemma join_no_other_space ws :
  Forall word ws ->
  Forall (fun c => is_space c = true -> c = SPACE) (py_join [SPACE] ws).
Proof.
  intros Hws. eapply Forall_impl; [by apply py_join_chars|].
  intros c [Hc| ->]; [congruence | done].
Qed.

End NormalisationShape.

(** X5.  [_clean_text] of a truthy value is the words of its [str]
    joined by single blanks: the three [replace] calls and the final
    [strip] find nothing left to do.  So splitting the result gives the
    same words, stripping it again changes nothing, and the only white
    space in it is U+0020. *)
Theorem clean_text_is_words_joined (v : value) :
  _clean_text v = (if truthy v then py_join [SPACE] (py_split (str v)) else [])
  /\ py_split (_clean_text v) = (if truthy v then py_split (str v) else [])
  /\ py_strip (_clean_text v) = _clean_text v
  /\ Forall (fun c => is_space c = true -> c = SPACE) (_clean_text v).
Proof.
  pose proof (py_split_words (str v)) as Hw.
  rewrite clean_text_normal. unfold normal_form.
  destruct (truthy v).
  - split_and!; [done | by apply py_split_join | by apply py_strip_join
                | by apply join_no_other_space].
  - split_and!; [done | done | done | constructor].
Qed.

(** X6.  The function [clean_text] of [crawlers/utils.py] returns what
    [DataCleaner._clean_text] returns on every string and on every falsy
    value, and raises [AttributeError] on a truthy value that is not a
    string, where [_clean_text] goes through [str].  The cleaner leaves a
    text that is already clean as it is, so a field the crawler has
    cleaned passes through the cleaner unchanged. *)
Theorem crawler_clean_text_agrees (v : value) :
  clean_text v
  = match v with
    | VStr _ => Ok (_clean_text v)
    | _ => if truthy v then Raise AttributeError else Ok (_clean_text v)
    end
  /\ _clean_text (VStr (_clean_text v)) = _clean_text v.
Proof.
  split; [|apply clean_text_fixed].
  unfold clean_text. destruct (truthy v) eqn:Ht; cbn [negb].
  - destruct v as [| | |s]; try done.
    pose proof (py_split_words s) as Hw.
    pose proof (py_join_chars _ Hw) as Hc.
    rewrite (py_replace_space_id 0xA0 _ eq_refl Hc).
    rewrite (py_replace_space_id 0x3000 _ eq_refl Hc).
    rewrite py_strip_join by done.
    rewrite clean_text_normal, Ht. done.
  - rewrite clean_text_normal, Ht. by destruct v.
Qed.

(** X7.  [_normalize_education] returns one of the five levels of
    [canonical_educations], whatever it is given; the four other members
    of [valid_educations], which the mapping sends to one of the five,
    are never returned. *)
Theorem normalize_education_range (v : value) :
  _normalize_education v ∈ canonical_educations
  /\ Forall (fun e => e ∈ valid_educations /\ _normalize_education v <> e)
            mapped_educations.
Proof.
  pose proof (normalize_education_canonical v) as Hin. split; [exact Hin|].
  revert Hin. generalize (_normalize_education v). intros e Hin.
  unfold canonical_educations in Hin.
  each_of Hin; repeat constructor; by vm_compute.
Qed.

(** X8.  [_normalize_location] returns either a city of
    [major_cities] that occurs in the cleaned text, or the cleaned text
    itself, and then no city of the list occurs in it. *)
Theorem normalize_location_city_or_text (v : value) :
  let r := _normalize_location v in
  (r ∈ major_cities /\ py_contains r (_clean_text v) = true)
  \/ (r = _clean_text v
      /\ Forall (fun city => py_contains city r = false) major_cities).
Proof.
  cbv zeta. unfold _normalize_location.
  destruct (first_city major_cities (_clean_text v)) as [city|] eqn:Hc.
  - left. by apply first_city_Some.
  - right. split; [done|]. by apply first_city_None.
Qed.

(** X9.  [_normalize_job] returns a record with the keys of its
    argument and [cleaned_time]; a field that is not among the normalised
    ones keeps its value (or stays absent), and each normalised field
    that is present holds a string afterwards. *)
Theorem normalize_job_keeps_fields `{RT : Runtime} (job : record) (c : cleaner) :
  let out := (_normalize_job job c).1 in
  dom out = dom job ∪ {["cleaned_time"%string]}
  /\ (forall k, k ∉ normalized_fields -> out !! k = job !! k)
  /\ (forall k, k ∈ normalized_fields -> k ∈ dom job -> exists s, out !! k = Some (VStr s)).
Proof.
  cbv zeta. split_and!.
  - apply set_eq. intros k. rewrite elem_of_union, !elem_of_dom, elem_of_singleton.
    rewrite normalize_job_lookup.
    destruct (decide (k = "cleaned_time"%string)) as [->|Hk].
    + split; [by right | by eexists].
    + rewrite fmap_is_Some. split; [by left | by intros [|]].
  - intros k Hk. rewrite normalize_job_lookup.
    unfold normalized_fields in Hk.
    rewrite decide_False by set_solver.
    destruct (job !! k) as [x|]; [|done]. cbn [fmap option_fmap option_map].
    f_equal. unfold normalize_value.
    rewrite !decide_False by set_solver.
    rewrite bool_decide_eq_false_2; [done|]. unfold text_fields. set_solver.
  - intros k Hk [x Hx]%elem_of_dom. rewrite normalize_job_lookup, Hx.
    destruct (decide (k = "cleaned_time"%string)); [by eexists|].
    cbn [fmap option_fmap option_map]. unfold normalize_value.
    destruct (decide (k = "location"%string)); [by eexists|].
    destruct (decide (k = "education"%string)); [by eexists|].
    rewrite bool_decide_eq_true_2; [by eexists|].
    unfold normalized_fields in Hk. unfold text_fields. set_solver.
Qed.

(* ================================================================== *)
(** * Part XII.  The sample builders                                   *)
(* ================================================================== *)

Section Substrings.
Variable sub : pystr.

Lemma py_startswith_app_l s t :
  py_startswith sub s = true -> py_startswith sub (s ++ t) = true.
Proof.
  revert s. induction sub as [|a p IH]; intros s; [done|].
  destruct s as [|b s]; [done|]. simpl.
  intros [-> Hp]%andb_true_iff. simpl. by apply IH.
Qed.

Lemma py_contains_start s : py_startswith sub s = true -> py_contains sub s = true.
Proof. intros H. destruct s; cbn [py_contains]; by rewrite H. Qed.

Lemma py_contains_app_l s t :
  py_contains sub s = true -> py_contains sub (s ++ t) = true.
Proof.
  induction s as [|c s IH].
  - cbn [py_contains]. rewrite orb_false_r. intros H.
    apply py_contains_start. by apply (py_startswith_app_l [] t).
  - cbn [py_contains]. intros [H|H]%orb_true_iff.
    + apply py_contains_start. by apply (py_startswith_app_l (c :: s) t).
    + change ((c :: s) ++ t) with (c :: s ++ t). cbn [py_contains].
      rewrite (IH H). apply orb_true_r.
Qed.

Lemma py_contains_app_r s t :
  py_contains sub t = true -> py_contains sub (s ++ t) = true.
Proof.
  intros H. induction s as [|c s IH]; [done|].
  change ((c :: s) ++ t) with (c :: s ++ t). cbn [py_contains].
  rewrite IH. apply orb_true_r.
Qed.

Lemma py_contains_here t : py_contains sub (sub ++ t) = true.
Proof. apply py_contains_start, py_startswith_app. Qed.

End Substrings.

Lemma py_endswith_app_r sub s t :
  py_endswith sub t = true -> py_endswith sub (s ++ t) = true.
Proof.
  unfold py_endswith. rewrite rev_app_distr. apply py_startswith_app_l.
Qed.

Section Lines.

Lemma py_split_line cur w :
  NL ∉ w -> py_split_from 0 [NL] cur w = [rev cur ++ w].
Proof.
  revert cur. induction w as [|c w IH]; intros cur Hw.
  - simpl. by rewrite app_nil_r.
  - cbn [py_split_from py_startswith].
    destruct (N.eqb_spec NL c) as [Heq|Hne]; [exfalso; apply Hw; rewrite Heq; by left|].
    cbn [andb]. rewrite IH by (intros ?; apply Hw; by right).
    simpl. by rewrite <- app_assoc.
Qed.

Lemma py_split_line_then cur w rest :
  NL ∉ w ->
  py_split_from 0 [NL] cur (w ++ NL :: rest)
  = (rev cur ++ w) :: py_split_from 0 [NL] [] rest.
Proof.
  revert cur. induction w as [|c w IH]; intros cur Hw.
  - simpl. by rewrite app_nil_r.
  - cbn [py_split_from py_startswith app].
    destruct (N.eqb_spec NL c) as [Heq|Hne]; [exfalso; apply Hw; rewrite Heq; by left|].
    cbn [andb]. rewrite IH by (intros ?; apply Hw; by right).
    simpl. by rewrite <- app_assoc.
Qed.

Lemma py_split_lines ws :
  Forall (fun w => NL ∉ w) ws -> ws <> [] ->
  py_split_sep [NL] (py_join [NL] ws) = ws.
Proof.
  unfold py_split_sep. induction 1 as [|w ws Hw Hws IH]; [done|]. intros _.
  destruct ws as [|w2 ws].
  - simpl. by rewrite py_split_line.
  - change (py_join [NL] (w :: w2 :: ws))
      with (w ++ NL :: py_join [NL] (w2 :: ws)).
    rewrite py_split_line_then by done. by rewrite IH.
Qed.

End Lines.

Section BuiltSamples.
Context `{RT : Runtime}.

Lemma sample_text_shape t instruction response :
  has_marker t instruction = true ->
  sample_shape_ok t (sample_of_text (sample_text instruction response)).
Proof.
  intros Hm. exists (sample_text instruction response). unfold sample_text.
  split_and!.
  - done.
  - apply py_startswith_app.
  - apply py_endswith_app_r.
    change (SPACE :: instruction ++ ?x) with (([SPACE] ++ instruction) ++ x).
    apply py_endswith_app_r.
    change (SPACE :: INST_CLOSE ++ ?x) with (([SPACE] ++ INST_CLOSE) ++ x).
    apply py_endswith_app_r.
    change (SPACE :: response ++ ?x) with (([SPACE] ++ response) ++ x).
    apply py_endswith_app.
  - apply py_contains_app_r.
    change (SPACE :: instruction ++ ?x) with (([SPACE] ++ instruction) ++ x).
    apply py_contains_app_r.
    change (SPACE :: INST_CLOSE ++ ?x) with ([SPACE] ++ INST_CLOSE ++ x).
    apply py_contains_app_r. apply py_contains_here.
  - unfold has_marker in *. apply orb_true_iff.
    apply orb_true_iff in Hm as [Hm|Hm]; [left|right];
      apply py_contains_app_r;
      change (SPACE :: instruction ++ ?x) with ([SPACE] ++ instruction ++ x);
      apply py_contains_app_r; by apply py_contains_app_l.
Qed.

Lemma input_parsing_marker user_input :
  has_marker UserInputParsing (input_parsing_instruction user_input) = true.
Proof.
  unfold has_marker, input_parsing_instruction. apply orb_true_iff. left.
  by apply py_contains_app_l.
Qed.

Lemma advice_marker scenario :
  has_marker AdviceGeneration (advice_instruction scenario) = true.
Proof.
  unfold has_marker, advice_instruction. apply orb_true_iff. left.
  by apply py_contains_app_l.
Qed.

Lemma build_input_parsing_sample_Ok item sample :
  build_input_parsing_sample item = Ok sample ->
  exists user_input params,
    getitem item "user_input" = Ok user_input
    /\ getitem item "structured_params" = Ok params
    /\ sample = sample_of_text
                  (sample_text (input_parsing_instruction user_input)
                               (json_dumps params)).
Proof.
  unfold build_input_parsing_sample.
  destruct (getitem item "user_input") as [ui|]; [|done].
  destruct (getitem item "structured_params") as [params|]; [|done].
  cbn [result_bind]. rewrite render_text. cbn [result_bind].
  intros [= <-]. by exists ui, params.
Qed.

Lemma build_input_parsing_sample_Raise item e :
  build_input_parsing_sample item = Raise e ->
  getitem item "user_input" = Raise e
  \/ (exists user_input, getitem item "user_input" = Ok user_input)
     /\ getitem item "structured_params" = Raise e.
Proof.
  unfold build_input_parsing_sample.
  destruct (getitem item "user_input") as [ui|e1]; [|intros [= ->]; by left].
  destruct (getitem item "structured_params") as [params|e2].
  - cbn [result_bind]. by rewrite render_text.
  - intros [= ->]. right. split; [by eexists | done].
Qed.

Lemma build_advice_sample_Ok item sample :
  build_advice_sample item = Ok sample ->
  exists instruction response,
    has_marker AdviceGeneration instruction = true
    /\ sample = sample_of_text (sample_text instruction response).
Proof.
  unfold build_advice_sample.
  destruct (getitem item "scenario") as [scenario|]; [|done].
  destruct (getitem item "advice") as [advice|]; [|done].
  cbn [result_bind].
  destruct (tips_of advice "resume_optimization") as [r1|]; [|done].
  destruct (tips_of advice "interview_preparation") as [r2|]; [|done].
  destruct (tips_of advice "application_strategy") as [r3|]; [|done].
  cbn [result_bind]. rewrite render_text. cbn [result_bind].
  intros [= <-]. exists (advice_instruction scenario), (advice_response r1 r2 r3).
  split; [apply advice_marker | done].
Qed.

Lemma result_map_Ok {A B} (f : A -> result B) xs ys :
  result_map f xs = Ok ys -> Forall2 (fun x y => f x = Ok y) xs ys.
Proof.
  revert ys. induction xs as [|x xs IH]; intros ys.
  - intros [= <-]. constructor.
  - cbn [result_map]. destruct (f x) as [y|] eqn:Hx; [|done].
    cbn [result_bind]. destruct (result_map f xs) as [ys'|]; [|done].
    cbn [result_bind]. intros [= <-]. constructor; [done | by apply IH].
Qed.

Lemma result_map_Raise {A B} (f : A -> result B) xs e :
  result_map f xs = Raise e ->
  exists before x after,
    xs = before ++ x :: after
    /\ Forall (fun x' => exists y, f x' = Ok y) before
    /\ f x = Raise e.
Proof.
  induction xs as [|x xs IH]; [done|].
  cbn [result_map]. destruct (f x) as [y|e1] eqn:Hx.
  - cbn [result_bind]. destruct (result_map f xs) as [ys'|e2]; [done|].
    cbn [result_bind]. intros [= ->].
    destruct IH as (before & x' & after & -> & Hb & Hx'); [done|].
    exists (x :: before), x', after. split_and!; [done | | done].
    constructor; [by eexists | done].
  - intros [= ->]. exists [], x, xs. split_and!; [done | constructor | done].
Qed.

Lemma input_parsing_samples_shape items samples :
  _build_input_parsing_samples items = Ok samples ->
  Forall (sample_shape_ok UserInputParsing) samples.
Proof.
  unfold _build_input_parsing_samples. intros Hmap%result_map_Ok.
  induction Hmap as [|item sample items samples Hitem _ IH]; constructor; [|done].
  apply build_input_parsing_sample_Ok in Hitem as (ui & params & _ & _ & ->).
  apply sample_text_shape, input_parsing_marker.
Qed.

Lemma advice_samples_shape items samples :
  _build_advice_samples items = Ok samples ->
  Forall (sample_shape_ok AdviceGeneration) samples.
Proof.
  unfold _build_advice_samples. intros Hmap%result_map_Ok.
  induction Hmap as [|item sample items samples Hitem _ IH]; constructor; [|done].
  apply build_advice_sample_Ok in Hitem as (instruction & response & Hm & ->).
  by apply sample_text_shape.
Qed.

End BuiltSamples.

(** X10.  [_format_tips_list] on a non-empty list of tips without line
    breaks returns a text whose lines are the tips, in order, each after
    ["- "]; taking that prefix off the lines gives the tips back. *)
Theorem format_tips_list_round_trip `{RT : Runtime} (tips : list pystr) :
  Forall (fun tip => NL ∉ tip) tips -> tips <> [] ->
  exists text,
    _format_tips_list (tips_list tips) = Ok text
    /\ py_split_sep [NL] text = map (fun tip => py "- " ++ tip) tips
    /\ map (py_removeprefix (py "- ")) (py_split_sep [NL] text) = tips.
Proof.
  intros Htips Hne. unfold _format_tips_list, tips_list. cbn [iter_items result_bind].
  eexists. split; [reflexivity|].
  rewrite map_map. cbn [obj_str str].
  assert (py_split_sep [NL] (py_join [NL] (map (fun tip => py "- " ++ tip) tips))
          = map (fun tip => py "- " ++ tip) tips) as Hsplit.
  { apply py_split_lines.
    - apply Forall_map. eapply Forall_impl; [exact Htips|].
      intros tip Htip Hin. apply elem_of_app in Hin as [Hin|Hin]; [|done].
      vm_compute in Hin. set_solver.
    - by destruct tips. }
  rewrite Hsplit. split; [done|].
  rewrite map_map. rewrite <- (map_id tips) at 2.
  apply map_ext. intros tip. apply py_removeprefix_app.
Qed.

Lemma format_tips_list_round_trip_witness :
  exists text,
    @_format_tips_list sample_runtime (tips_list [py "a b"; py "c"]) = Ok text
    /\ text = py "- a b" ++ [NL] ++ py "- c"
    /\ map (py_removeprefix (py "- ")) (py_split_sep [NL] text) = [py "a b"; py "c"].
Proof.
  destruct (@format_tips_list_round_trip sample_runtime [py "a b"; py "c"])
    as (text & Htext & _ & Hback).
  - repeat constructor; vm_compute; set_solver.
  - discriminate.
  - exists text. split; [exact Htext|]. split; [|exact Hback].
    vm_compute in Htext. injection Htext as <-. vm_compute. reflexivity.
Defined.

(** X11.  [_build_input_parsing_samples] either returns one sample per
    annotation, in order, whose text is the template filled with the
    instruction for the annotation's [user_input] and the JSON of its
    [structured_params]; or it raises, at the first annotation one of the
    two lookups fails for, the exception of that lookup, the annotations
    before it having been built. *)
Theorem build_input_parsing_samples_spec `{RT : Runtime} (items : list pyobj) :
  match _build_input_parsing_samples items with
  | Ok samples =>
      Forall2 (fun item sample =>
                 exists user_input params,
                   getitem item "user_input" = Ok user_input
                   /\ getitem item "structured_params" = Ok params
                   /\ sample = sample_of_text
                                 (sample_text (input_parsing_instruction user_input)
                                              (json_dumps params)))
              items samples
  | Raise e =>
      exists before item after,
        items = before ++ item :: after
        /\ Forall (fun item' => exists sample, build_input_parsing_sample item' = Ok sample)
                  before
        /\ (getitem item "user_input" = Raise e
            \/ getitem item "structured_params" = Raise e)
  end.
Proof.
  unfold _build_input_parsing_samples.
  destruct (result_map build_input_parsing_sample items) as [samples|e] eqn:Hmap.
  - apply result_map_Ok in Hmap. eapply Forall2_impl; [exact Hmap|].
    intros item sample. apply build_input_parsing_sample_Ok.
  - apply result_map_Raise in Hmap as (before & item & after & -> & Hb & Hitem).
    exists before, item, after. split_and!; [done | done |].
    apply build_input_parsing_sample_Raise in Hitem as [H|[_ H]]; auto.
Qed.

(** X12.  When [_build_input_parsing_samples] returns, it returns as
    many samples as it was given annotations, and each is a dictionary
    with the one key ["text"], whose text starts with the opening tag,
    ends with the end tag, holds the closing tag, and holds a marker
    phrase by which the validator counts it under [user_input_parsing]. *)
Theorem build_input_parsing_samples_shape `{RT : Runtime} (items samples : list pyobj) :
  _build_input_parsing_samples items = Ok samples ->
  length samples = length items
  /\ Forall (sample_shape_ok UserInputParsing) samples.
Proof.
  intros Hbuild. split; [|by eapply input_parsing_samples_shape].
  unfold _build_input_parsing_samples in Hbuild. apply result_map_Ok in Hbuild.
  symmetry. by eapply Forall2_length.
Qed.

Lemma build_input_parsing_samples_shape_witness :
  exists samples,
    @_build_input_parsing_samples sample_runtime sample_annotations_parsing = Ok samples
    /\ length samples = 2%nat
    /\ Forall (sample_shape_ok UserInputParsing) samples.
Proof.
  assert (exists samples,
             @_build_input_parsing_samples sample_runtime sample_annotations_parsing
             = Ok samples) as [samples Hs].
  { vm_compute. eexists. reflexivity. }
  exists samples.
  destruct (@build_input_parsing_samples_shape sample_runtime _ _ Hs) as [Hl Hshape].
  split; [exact Hs|]. split; [exact Hl | exact Hshape].
Defined.

(** X13.  When [_build_advice_samples] returns, it returns as many
    samples as it was given annotations, and each is a dictionary with
    the one key ["text"], whose text starts with the opening tag, ends
    with the end tag, holds the closing tag, and holds a marker phrase by
    which the validator counts it under [advice_generation]. *)
Theorem build_advice_samples_shape `{RT : Runtime} (items samples : list pyobj) :
  _build_advice_samples items = Ok samples ->
  length samples = length items
  /\ Forall (sample_shape_ok AdviceGeneration) samples.
Proof.
  intros Hbuild. split; [|by eapply advice_samples_shape].
  unfold _build_advice_samples in Hbuild. apply result_map_Ok in Hbuild.
  symmetry. by eapply Forall2_length.
Qed.

Lemma build_advice_samples_shape_witness :
  exists samples,
    @_build_advice_samples sample_runtime [sample_advice] = Ok samples
    /\ length samples = 1%nat
    /\ Forall (sample_shape_ok AdviceGeneration) samples.
Proof.
  assert (exists samples,
             @_build_advice_samples sample_runtime [sample_advice] = Ok samples)
    as [samples Hs].
  { vm_compute. eexists. reflexivity. }
  exists samples.
  destruct (@build_advice_samples_shape sample_runtime _ _ Hs) as [Hl Hshape].
  split; [exact Hs|]. split; [exact Hl | exact Hshape].
Defined.

(* ================================================================== *)
(** * Part XIII.  What the validator reports                           *)
(* ================================================================== *)

Section Appending.
Context (Pe Pw : message -> Prop).

Lemma adds_ret {A} (a : A) : adds Pe Pw (v_ret a).
Proof. intros s. exists [], []. simpl. by rewrite !app_nil_r. Qed.

Lemma adds_lift {A} (r : result A) : adds Pe Pw (v_lift r).
Proof. intros s. exists [], []. simpl. by rewrite !app_nil_r. Qed.

Lemma adds_error m : Pe m -> adds Pe Pw (add_error m).
Proof.
  intros Hm s. exists [m], []. simpl. rewrite app_nil_r.
  split_and!; [done | done | by constructor | constructor].
Qed.

Lemma adds_warning m : Pw m -> adds Pe Pw (add_warning m).
Proof.
  intros Hm s. exists [], [m]. simpl. rewrite app_nil_r.
  split_and!; [done | done | constructor | by constructor].
Qed.

Lemma adds_bind {A B} (m : V A) (k : A -> V B) :
  adds Pe Pw m -> (forall a, adds Pe Pw (k a)) -> adds Pe Pw (v_bind m k).
Proof.
  intros Hm Hk s. unfold v_bind.
  destruct (Hm s) as (e1 & w1 & He1 & Hw1 & HPe1 & HPw1).
  destruct (m s) as [s1 [a|ex]]; cbn [fst] in *.
  - destruct (Hk a s1) as (e2 & w2 & He2 & Hw2 & HPe2 & HPw2).
    exists (e1 ++ e2), (w1 ++ w2). rewrite He2, He1, Hw2, Hw1, !app_assoc.
    split_and!; [done | done | by apply Forall_app | by apply Forall_app].
  - by exists e1, w1.
Qed.

Lemma adds_when b (m : V unit) : adds Pe Pw m -> adds Pe Pw (v_when b m).
Proof. intros Hm. destruct b; [done | apply adds_ret]. Qed.

Lemma adds_for {St} (body : St -> nat -> pyobj -> V St) :
  (forall acc i item, adds Pe Pw (body acc i item)) ->
  forall items acc i, adds Pe Pw (v_for body acc i items).
Proof.
  intros Hbody. induction items as [|item items IH]; intros acc i.
  - apply adds_ret.
  - cbn [v_for]. apply adds_bind; [apply Hbody|]. intros acc'. apply IH.
Qed.

End Appending.

Lemma adds_mono {A} (Pe Pw Qe Qw : message -> Prop) (m : V A) :
  (forall x, Pe x -> Qe x) -> (forall x, Pw x -> Qw x) ->
  adds Pe Pw m -> adds Qe Qw m.
Proof.
  intros He Hw Hm s. destruct (Hm s) as (e & w & ? & ? & HPe & HPw).
  exists e, w. split_and!; [done | done | |]; eapply Forall_impl; eauto.
Qed.

Lemma adds_no_error {A} (Pw : message -> Prop) (m : V A) s :
  adds no_message Pw m -> errors (m s).1 = errors s.
Proof.
  intros Hm. destruct (Hm s) as (e & w & -> & _ & He & _).
  destruct e as [|x e]; [by rewrite app_nil_r|]. by inversion He.
Qed.

Lemma adds_no_warning {A} (Pe : message -> Prop) (m : V A) s :
  adds Pe no_message m -> warnings (m s).1 = warnings s.
Proof.
  intros Hm. destruct (Hm s) as (e & w & _ & -> & _ & Hw).
  destruct w as [|x w]; [by rewrite app_nil_r|]. by inversion Hw.
Qed.

Ltac adds_step :=
  first
    [ apply adds_ret | apply adds_lift
    | apply adds_error; done | apply adds_warning; done
    | apply adds_when
    | apply adds_for; intros ? ? ?
    | apply adds_bind; [|intros ?] ].

Section Checks.

Lemma check_format_adds data : adds error_kind no_message (_check_format data).
Proof.
  unfold _check_format. apply adds_bind; [apply adds_lift|]. intros items.
  apply adds_for. intros [] i item.
  destruct (negb (is_dict item)); repeat adds_step.
Qed.

Lemma check_completeness_adds data :
  adds error_kind warning_kind (_check_completeness data).
Proof.
  unfold _check_completeness. apply adds_bind; [apply adds_lift|]. intros items.
  apply adds_for. intros [] i item.
  apply adds_bind; [apply adds_lift|]. intros text0.
  apply adds_bind; [apply adds_lift|]. intros text.
  repeat (apply adds_bind; [apply adds_when; adds_step|]; intros []).
  destruct (length text <? 50)%nat; repeat adds_step.
Qed.

Lemma check_content_quality_adds data :
  adds no_message quality_kind (_check_content_quality data).
Proof.
  unfold _check_content_quality. apply adds_bind; [apply adds_lift|]. intros items.
  apply adds_bind.
  { apply adds_for. intros [seen dups] i item.
    apply adds_bind; [apply adds_lift|]. intros text.
    apply adds_bind; [apply adds_lift|]. intros dup.
    destruct dup; repeat adds_step. }
  intros r. cbv zeta.
  apply adds_bind; [apply adds_when; adds_step|]. intros [].
  apply adds_bind.
  { apply adds_for. intros k i item. repeat adds_step. }
  intros counts.
  destruct (0 <? n_parsing counts + n_matching counts + n_advice counts)%nat;
    [|apply adds_ret].
  unfold tasks. cbn [foldr]. repeat adds_step.
Qed.

Lemma check_statistics_adds data :
  adds no_message warning_kind (_check_statistics data).
Proof.
  unfold _check_statistics. repeat adds_step.
Qed.

Lemma validate_body_adds loaded : adds error_kind warning_kind (validate_body loaded).
Proof.
  unfold validate_body. apply adds_bind; [apply adds_lift|]. intros data.
  destruct (negb (obj_truthy data)); [repeat adds_step|].
  apply adds_bind.
  { eapply adds_mono; [| |apply check_format_adds]; [done | by intros ? []]. }
  intros [].
  apply adds_bind; [apply check_completeness_adds|]. intros [].
  apply adds_bind.
  { eapply adds_mono; [| |apply check_content_quality_adds];
      [by intros ? [] | by intros []]. }
  intros [].
  apply adds_bind.
  { eapply adds_mono; [| |apply check_statistics_adds]; [by intros ? [] | done]. }
  intros []. intros s. exists [], []. simpl. by rewrite !app_nil_r.
Qed.

End Checks.

(** X16.  After [validate_dataset], whatever the file holds, every
    entry of the error list is one of the six messages the code appends
    to [self.errors] (empty dataset, failed to load, not a dictionary,
    missing text field, text not a string, missing closing tag), and no
    entry of the warning list is one of them. *)
Theorem validate_dataset_message_kinds (loaded : result pyobj) (self : validator) :
  let r := validate_dataset loaded self in
  Forall (fun m => is_error_kind m = true) (errors r.2)
  /\ Forall (fun m => is_error_kind m = false) (warnings r.2).
Proof.
  cbv zeta. unfold validate_dataset.
  destruct (validate_body_adds loaded new_validator) as (e & w & He & Hw & HPe & HPw).
  destruct (validate_body loaded new_validator) as [s [passed|ex]];
    cbn [fst snd errors warnings] in *; rewrite He, ?Hw; cbn [app].
  - done.
  - split; [|done]. apply Forall_app. split; [done|]. by repeat constructor.
Qed.

(** X17.  [_check_format] appends no warning, and
    [_check_content_quality] and [_check_statistics] append no error, on
    any data and from any state of the two lists. *)
Theorem checks_leave_the_other_list (data : pyobj) (s : validator) :
  warnings (_check_format data s).1 = warnings s
  /\ errors (_check_content_quality data s).1 = errors s
  /\ errors (_check_statistics data s).1 = errors s.
Proof.
  split_and!.
  - eapply adds_no_warning, check_format_adds.
  - eapply adds_no_error, check_content_quality_adds.
  - eapply adds_no_error, check_statistics_adds.
Qed.

Section Runs.

Lemma format_item_run i item s :
  (if negb (is_dict item) then add_error (NotADict i)
   else
     v_when (lacks_text item) (add_error (MissingText i)) ;;
     do text <- v_lift (obj_get item "text" (PVal VNone));
     v_when (negb (is_str text)) (add_error (TextNotString i))) s
  = (mk_validator (errors s ++ format_errors i item) (warnings s), Ok tt).
Proof.
  destruct item as [v|l|d]; cbn [is_dict negb format_errors]; [done..|].
  unfold v_bind, v_when, v_lift, lacks_text, obj_get, add_error, v_ret.
  destruct (d !! "text"%string) as [[[| | |t]| |]|] eqn:Hd;
    case_bool_decide; try done; cbn [default is_str negb errors warnings];
    rewrite <- ?app_assoc, ?app_nil_r; by destruct s.
Qed.

Lemma v_for_appends (body : unit -> nat -> pyobj -> V unit)
    (fe fw : nat -> pyobj -> list message) (P : pyobj -> Prop) :
  (forall i item s, P item ->
     body tt i item s
     = (mk_validator (errors s ++ fe i item) (warnings s ++ fw i item), Ok tt)) ->
  forall items, Forall P items -> forall i s,
    v_for body tt i items s
    = (mk_validator (errors s ++ messages_from fe i items)
                    (warnings s ++ messages_from fw i items), Ok tt).
Proof.
  intros Hbody items Hall. induction Hall as [|item items Hitem _ IH]; intros i s.
  - cbn. rewrite !app_nil_r. by destruct s.
  - cbn [v_for messages_from]. unfold v_bind at 1. rewrite (Hbody i item s Hitem).
    rewrite IH. cbn [errors warnings]. by rewrite <- !app_assoc.
Qed.

Lemma messages_from_none i items : messages_from (fun _ _ => []) i items = [].
Proof. revert i. induction items as [|item items IH]; intros i; [done|]. apply IH. Qed.

Lemma check_format_run data items s :
  iter_items data = Ok items ->
  _check_format data s
  = (mk_validator (errors s ++ format_errors_from 0 items) (warnings s), Ok tt).
Proof.
  intros Hitems. unfold _check_format. unfold v_bind at 1, v_lift at 1.
  rewrite Hitems.
  rewrite (v_for_appends _ format_errors (fun _ _ => []) (fun _ => True)).
  - by rewrite messages_from_none, app_nil_r.
  - intros i item s' _. rewrite app_nil_r. apply format_item_run.
  - by apply Forall_true.
Qed.

Lemma format_errors_nil i items :
  format_errors_from i items = [] <-> Forall (fun item => has_str_text item = true) items.
Proof.
  revert i. induction items as [|item items IH]; intros i.
  - split; [constructor | done].
  - unfold format_errors_from. cbn [messages_from]. split.
    + intros [H1 H2]%app_eq_nil. constructor; [|by apply (IH (S i))].
      destruct item as [v|l|d]; try done. unfold format_errors in H1. simpl.
      by destruct (d !! "text"%string) as [[[| | |t]| |]|].
    + intros [H1 H2]%Forall_cons. apply app_nil. split; [|by apply IH].
      destruct item as [v|l|d]; try done. simpl in *.
      by destruct (d !! "text"%string) as [[[| | |t]| |]|].
Qed.

Lemma has_str_text_text_of item :
  has_str_text item = true -> exists t, text_of item = Some t.
Proof.
  destruct item as [v|l|d]; try done. simpl.
  destruct (d !! "text"%string) as [[[| | |t]| |]|]; try done. by exists t.
Qed.

Lemma has_str_text_well_formed items :
  Forall (fun item => has_str_text item = true) items -> Forall well_formed_item items.
Proof.
  intros H. eapply Forall_impl; [exact H|].
  intros item [t Ht]%has_str_text_text_of. by exists t.
Qed.

Lemma completeness_item_run i item t s :
  text_of item = Some t ->
  (do text <- v_lift (get_text item);
   do text <- v_lift (as_str text);
   v_when (negb (py_startswith (py "<s>[INST]") text)) (add_warning (NoStartTag i)) ;;
   v_when (negb (py_contains (py "[/INST]") text)) (add_error (MissingCloseTag i)) ;;
   v_when (negb (py_endswith (py "</s>") text)) (add_warning (NoEndTag i)) ;;
   if (length text <? 50)%nat then add_warning (TextTooShort i (length text))
   else v_when (2048 <? length text)%nat (add_warning (TextVeryLong i (length text)))) s
  = (mk_validator (errors s ++ completeness_errors i t)
                  (warnings s ++ completeness_warnings i t), Ok tt).
Proof.
  intros Ht. unfold v_bind at 1, v_lift at 1.
  rewrite (get_text_well_formed _ _ Ht).
  unfold v_bind at 1, v_lift at 1. cbn [as_str].
  unfold completeness_errors, completeness_warnings.
  unfold v_bind, v_when, add_warning, add_error, v_ret.
  destruct (py_startswith (py "<s>[INST]") t), (py_contains (py "[/INST]") t),
    (py_endswith (py "</s>") t), (length t <? 50)%nat, (2048 <? length t)%nat;
    cbn [negb errors warnings app]; rewrite <- ?app_assoc, ?app_nil_r;
    by destruct s.
Qed.

Lemma check_completeness_run items s :
  Forall well_formed_item items ->
  _check_completeness (PList items) s
  = (mk_validator (errors s ++ completeness_errors_from 0 items)
                  (warnings s ++ completeness_warnings_from 0 items), Ok tt).
Proof.
  intros Hwf. unfold _check_completeness. unfold v_bind at 1, v_lift at 1.
  cbn [iter_items].
  apply (v_for_appends _
           (fun i item => completeness_errors i (text_or_empty item))
           (fun i item => completeness_warnings i (text_or_empty item))
           well_formed_item); [|done].
  intros i item s' [t Ht]. unfold text_or_empty. rewrite Ht. cbn [default].
  by apply completeness_item_run.
Qed.

Lemma completeness_errors_nil i items :
  Forall (fun item => has_str_text item = true) items ->
  completeness_errors_from i items = []
  <-> Forall (fun item => passing_item item = true) items.
Proof.
  intros Hstr. revert i. induction Hstr as [|item items Hitem _ IH]; intros i.
  - split; [constructor | done].
  - unfold completeness_errors_from. cbn [messages_from].
    assert (completeness_errors i (text_or_empty item) = []
            <-> passing_item item = true) as Hone.
    { destruct item as [v|l|d]; try done.
      unfold text_or_empty, text_of, passing_item. unfold has_str_text in Hitem.
      destruct (d !! "text"%string) as [[[| | |t]| |]|]; try done.
      cbn [default from_option id]. unfold completeness_errors.
      destruct (py_contains (py "[/INST]") t); split; done. }
    split.
    + intros [H1 H2]%app_eq_nil. constructor; [by apply Hone | by apply (IH (S i))].
    + intros [H1 H2]%Forall_cons. apply app_nil.
      split; [by apply Hone | by apply IH].
Qed.

Lemma check_content_quality_returns items s :
  Forall well_formed_item items ->
  exists new,
    _check_content_quality (PList items) s
    = (mk_validator (errors s) (warnings s ++ new), Ok tt)
    /\ Forall quality_kind new.
Proof.
  intros Hwf.
  assert (exists new,
             _check_content_quality (PList items) s
             = (mk_validator (errors s) (warnings s ++ new), Ok tt)) as [new Hrun].
  { unfold _check_content_quality. unfold v_bind at 1, v_lift at 1.
    cbn [iter_items].
    destruct (duplicates_loop_ok items Hwf ([], 0%nat) 0%nat s)
      as (w & r & Hloop & _).
    unfold v_bind at 1. rewrite Hloop. cbv zeta.
    unfold v_bind at 1.
    set (dw := if (0 <? r.2)%nat then [TotalDuplicates r.2] else []).
    assert (v_when (0 <? r.2)%nat (add_warning (TotalDuplicates r.2))
              (mk_validator (errors s) (warnings s ++ w))
            = (mk_validator (errors s) (warnings s ++ w ++ dw), Ok tt)) as ->.
    { subst dw. unfold v_when, add_warning, v_ret.
      destruct (0 <? r.2)%nat; cbn [errors warnings].
      - by rewrite <- app_assoc.
      - by rewrite app_nil_r. }
    unfold v_bind at 1. rewrite (counting_loop_ok items Hwf).
    eexists. etransitivity; [apply task_loop_ok|]. cbn [errors warnings].
    by rewrite <- !app_assoc. }
  exists new. split; [done|].
  destruct (check_content_quality_adds (PList items) s) as (e & w & _ & Hw & _ & Hq).
  rewrite Hrun in Hw. cbn [fst warnings] in Hw.
  apply app_inv_head in Hw. by subst w.
Qed.

Lemma text_lengths_run items :
  Forall well_formed_item items ->
  result_map (fun item => result_bind (get_text item) py_len) items
  = Ok (map (fun item => length (text_or_empty item)) items).
Proof.
  induction 1 as [|item items [t Ht] _ IH]; [done|].
  cbn [result_map map]. rewrite (get_text_well_formed _ _ Ht). cbn [result_bind py_len].
  rewrite IH. cbn [result_bind]. unfold text_or_empty. by rewrite Ht.
Qed.

Lemma check_statistics_run items s :
  Forall well_formed_item items ->
  _check_statistics (PList items) s
  = (mk_validator (errors s) (warnings s ++ statistics_warnings items), Ok tt).
Proof.
  intros Hwf. unfold _check_statistics. unfold v_bind at 1, v_lift at 1.
  cbn [iter_items]. unfold v_bind at 1, v_lift at 1.
  rewrite (text_lengths_run items Hwf). cbv zeta. unfold statistics_warnings.
  unfold v_bind, v_when, add_warning, v_ret.
  destruct (length items <? 1000)%nat,
    (2048 <? list_max (map (fun item => length (text_or_empty item)) items))%nat;
    cbn [errors warnings app]; rewrite <- ?app_assoc, ?app_nil_r; by destruct s.
Qed.

(** The whole run on a list of dictionaries with string texts. *)
Lemma validate_body_run items s :
  items <> [] ->
  Forall (fun item => has_str_text item = true) items ->
  exists quality,
    validate_body (Ok (PList items)) s
    = (mk_validator (errors s ++ completeness_errors_from 0 items)
                    (warnings s ++ completeness_warnings_from 0 items
                       ++ quality ++ statistics_warnings items),
       Ok (length (errors s ++ completeness_errors_from 0 items) =? 0)%nat)
    /\ Forall quality_kind quality.
Proof.
  intros Hne Hstr. pose proof (has_str_text_well_formed items Hstr) as Hwf.
  unfold validate_body. unfold v_bind at 1, v_lift at 1.
  assert (obj_truthy (PList items) = true) as -> by (by destruct items).
  cbn [negb]. unfold v_bind at 1.
  rewrite (check_format_run (PList items) items s eq_refl).
  rewrite (proj2 (format_errors_nil 0 items) Hstr), app_nil_r.
  unfold v_bind at 1. rewrite (check_completeness_run items _ Hwf).
  cbn [errors warnings]. unfold v_bind at 1.
  match goal with |- context [_check_content_quality _ ?st] =>
    destruct (check_content_quality_returns items st Hwf) as (quality & Hq & Hkind)
  end.
  exists quality. split; [|done].
  rewrite Hq. cbn [errors warnings].
  unfold v_bind at 1. rewrite (check_statistics_run items _ Hwf).
  cbn [errors warnings]. by rewrite <- !app_assoc.
Qed.

Lemma iter_str_items data items :
  obj_truthy data = true -> iter_items data = Ok items ->
  Forall (fun item => has_str_text item = true) items ->
  data = PList items /\ items <> [].
Proof.
  intros Ht Hitems Hstr. destruct data as [v|l|d].
  - destruct v as [| | |t]; try done. simpl in Hitems. injection Hitems as <-.
    destruct t as [|c t]; [done|]. by inversion Hstr.
  - injection Hitems as <-. split; [done|]. by destruct l.
  - simpl in Ht, Hitems. injection Hitems as <-.
    destruct (map_to_list d) as [|kv l] eqn:Hl.
    + apply map_to_list_empty_iff in Hl as ->. by rewrite map_size_empty in Ht.
    + by inversion Hstr.
Qed.

Lemma validate_body_true loaded s :
  validate_body loaded new_validator = (s, Ok true) ->
  exists items,
    loaded = Ok (PList items) /\ items <> []
    /\ Forall (fun item => passing_item item = true) items.
Proof.
  unfold validate_body. intros (data & s0 & Hload & H)%v_bind_Ok.
  unfold v_lift in Hload. injection Hload as <- ->.
  destruct (obj_truthy data) eqn:Htruthy; cbn [negb] in H.
  2:{ apply v_bind_Ok in H as ([] & s1 & _ & Hret). by injection Hret. }
  apply v_bind_Ok in H as ([] & s1 & Hformat & H).
  apply v_bind_Ok in H as ([] & s2 & Hcompl & H).
  apply v_bind_Ok in H as ([] & s3 & Hquality & H).
  apply v_bind_Ok in H as ([] & s4 & Hstat & H).
  injection H as <- Hpassed. apply Nat.eqb_eq, nil_length_inv in Hpassed.
  pose proof (adds_no_error _ _ s3 (check_statistics_adds data)) as H4.
  rewrite Hstat in H4. cbn [fst] in H4.
  pose proof (adds_no_error _ _ s2 (check_content_quality_adds data)) as H3.
  rewrite Hquality in H3. cbn [fst] in H3.
  destruct (check_completeness_adds data s1) as (e2 & _ & H2 & _).
  rewrite Hcompl in H2. cbn [fst] in H2.
  assert (errors s1 = [] /\ errors s2 = []) as [Hs1 Hs2].
  { rewrite Hpassed in H4. rewrite <- H4 in H3. rewrite <- H3 in H2.
    symmetry in H2. apply app_eq_nil in H2 as [? _]. split; [done | congruence]. }
  destruct (iter_items data) as [items|e] eqn:Hitems.
  2:{ unfold _check_format, v_bind, v_lift in Hformat. by rewrite Hitems in Hformat. }
  rewrite (check_format_run data items _ Hitems) in Hformat.
  injection Hformat as <-. cbn [errors app] in Hs1.
  apply format_errors_nil in Hs1.
  destruct (iter_str_items data items Htruthy Hitems Hs1) as [-> Hne].
  exists items. split_and!; [done | done |].
  rewrite (check_completeness_run items _ (has_str_text_well_formed _ Hs1)) in Hcompl.
  injection Hcompl as <-. cbn [errors app] in Hs2.
  apply app_nil in Hs2 as [_ Hs2].
  by apply (completeness_errors_nil 0 items Hs1).
Qed.

Lemma sample_shape_passing t sample :
  sample_shape_ok t sample -> passing_item sample = true.
Proof.
  intros (text & -> & _ & _ & Hclose & _). unfold passing_item, sample_of_text.
  by rewrite lookup_singleton_eq.
Qed.

Lemma passing_has_str_text items :
  Forall (fun item => passing_item item = true) items ->
  Forall (fun item => has_str_text item = true) items.
Proof.
  intros Hpass. eapply Forall_impl; [exact Hpass|]. intros [v|l|d]; try done.
  unfold passing_item, has_str_text.
  by destruct (d !! "text"%string) as [[[| | |t]| |]|].
Qed.

Lemma validate_dataset_passing items self :
  items <> [] -> Forall (fun item => passing_item item = true) items ->
  (validate_dataset (Ok (PList items)) self).1 = true.
Proof.
  intros Hne Hpass. pose proof (passing_has_str_text items Hpass) as Hstr.
  unfold validate_dataset.
  destruct (validate_body_run items new_validator Hne Hstr) as (q & -> & _).
  cbn [fst errors new_validator app].
  by rewrite (proj2 (completeness_errors_nil 0 items Hstr) Hpass).
Qed.

End Runs.

(** X18.  [validate_dataset] returns [passed = True] exactly when the
    file holds a non-empty list whose items are all dictionaries with a
    string under ["text"] that holds the closing tag ["[/INST]"]. *)
Theorem validate_dataset_passes_iff (loaded : result pyobj) (self : validator) :
  (validate_dataset loaded self).1 = true
  <-> exists items,
        loaded = Ok (PList items) /\ items <> []
        /\ Forall (fun item => passing_item item = true) items.
Proof.
  unfold validate_dataset. split.
  - destruct (validate_body loaded new_validator) as [s [passed|e]] eqn:Hbody;
      cbn [fst]; [|done].
    intros ->. by eapply validate_body_true.
  - intros (items & -> & Hne & Hpass). by apply (validate_dataset_passing items self).
Qed.

(** ** The reports, message by message *)

Section Reports.

Lemma elem_of_messages_from f m items i :
  m ∈ messages_from f i items
  <-> exists j item, items !! j = Some item /\ m ∈ f (i + j)%nat item.
Proof.
  revert i. induction items as [|item items IH]; intros i; cbn [messages_from].
  - split; [by intros ?%elem_of_nil | by intros (j & it & ? & _)].
  - rewrite elem_of_app, IH. split.
    + intros [H|(j & it & Hj & H)].
      * exists 0%nat, item. by rewrite Nat.add_0_r.
      * exists (S j), it. split; [done|]. by rewrite Nat.add_succ_r.
    + intros ([|j] & it & Hj & H).
      * left. injection Hj as <-. by rewrite Nat.add_0_r in H.
      * right. exists j, it. split; [done|]. by rewrite Nat.add_succ_r in H.
Qed.

Lemma foldl_max_lt k l x :
  (k < foldl Nat.max x l)%nat <-> (k < x)%nat \/ Exists (fun y => (k < y)%nat) l.
Proof.
  revert x. induction l as [|y l IH]; intros x; cbn [foldl].
  - rewrite Exists_nil. tauto.
  - rewrite IH, Exists_cons, Nat.max_lt_iff. tauto.
Qed.

Lemma list_max_lt k l :
  (k < list_max l)%nat <-> Exists (fun y => (k < y)%nat) l.
Proof.
  destruct l as [|x l]; cbn [list_max].
  - rewrite Exists_nil. lia.
  - by rewrite foldl_max_lt, Exists_cons.
Qed.

(** The first item without a text. *)
Lemma first_without_text items :
  Exists (fun item => text_of item = None) items ->
  exists before bad after,
    items = before ++ bad :: after
    /\ Forall well_formed_item before /\ text_of bad = None.
Proof.
  induction items as [|item items IH]; [by intros ?%Exists_nil|].
  intros Hex. destruct (text_of item) as [t|] eqn:Ht.
  - apply Exists_cons in Hex as [Hex|Hex]; [congruence|].
    destruct (IH Hex) as (before & bad & after & -> & Hb & Hbad).
    exists (item :: before), bad, after. split_and!; [done | | done].
    constructor; [by exists t | done].
  - exists [], item, items. split_and!; [done | constructor | done].
Qed.

Lemma v_for_raises (body : unit -> nat -> pyobj -> V unit)
    (fe fw : nat -> pyobj -> list message) (P : pyobj -> Prop) bad e :
  (forall i item s, P item ->
     body tt i item s
     = (mk_validator (errors s ++ fe i item) (warnings s ++ fw i item), Ok tt)) ->
  (forall i s, body tt i bad s = (s, Raise e)) ->
  forall before after, Forall P before -> forall i s,
    v_for body tt i (before ++ bad :: after) s
    = (mk_validator (errors s ++ messages_from fe i before)
                    (warnings s ++ messages_from fw i before), Raise e).
Proof.
  intros Hbody Hbad before after Hall.
  induction Hall as [|item before Hitem _ IH]; intros i s.
  - cbn [app v_for messages_from]. unfold v_bind. rewrite Hbad, !app_nil_r.
    by destruct s.
  - cbn [app v_for messages_from]. unfold v_bind at 1.
    rewrite (Hbody i item s Hitem). rewrite IH. cbn [errors warnings].
    by rewrite <- !app_assoc.
Qed.

Lemma completeness_item_raises i item s :
  text_of item = None ->
  (do text <- v_lift (get_text item);
   do text <- v_lift (as_str text);
   v_when (negb (py_startswith (py "<s>[INST]") text)) (add_warning (NoStartTag i)) ;;
   v_when (negb (py_contains (py "[/INST]") text)) (add_error (MissingCloseTag i)) ;;
   v_when (negb (py_endswith (py "</s>") text)) (add_warning (NoEndTag i)) ;;
   if (length text <? 50)%nat then add_warning (TextTooShort i (length text))
   else v_when (2048 <? length text)%nat (add_warning (TextVeryLong i (length text)))) s
  = (s, Raise AttributeError).
Proof.
  intros Ht. unfold v_bind at 1, v_lift at 1.
  destruct item as [v|l|d]; cbn [get_text obj_get]; [done..|].
  unfold text_of in Ht. unfold v_bind at 1, v_lift at 1.
  by destruct (d !! "text"%string) as [[[| | |t]| |]|].
Qed.

Lemma check_completeness_raises before bad after s :
  Forall well_formed_item before -> text_of bad = None ->
  _check_completeness (PList (before ++ bad :: after)) s
  = (mk_validator (errors s ++ completeness_errors_from 0 before)
                  (warnings s ++ completeness_warnings_from 0 before),
     Raise AttributeError).
Proof.
  intros Hwf Hbad. unfold _check_completeness. unfold v_bind at 1, v_lift at 1.
  cbn [iter_items].
  apply (v_for_raises _
           (fun i item => completeness_errors i (text_or_empty item))
           (fun i item => completeness_warnings i (text_or_empty item))
           well_formed_item); [| |done].
  - intros i item s' [t Ht]. unfold text_or_empty. rewrite Ht. cbn [default].
    by apply completeness_item_run.
  - intros i s'. by apply completeness_item_raises.
Qed.

Lemma elem_of_completeness_errors m i item :
  has_str_text item = true ->
  m ∈ completeness_errors i (text_or_empty item)
  <-> passing_item item = false /\ m = MissingCloseTag i.
Proof.
  destruct item as [v|l|d]; try done.
  unfold has_str_text, passing_item, text_or_empty, text_of, completeness_errors.
  destruct (d !! "text"%string) as [[[| | |t]| |]|]; try done.
  intros _. cbn [default from_option id].
  destruct (py_contains (py "[/INST]") t).
  - split; [by intros ?%elem_of_nil | by intros []].
  - rewrite list_elem_of_singleton. naive_solver.
Qed.

Lemma elem_of_completeness_warnings m i text :
  m ∈ completeness_warnings i text
  <-> (m = NoStartTag i /\ py_startswith (py "<s>[INST]") text = false)
      \/ (m = NoEndTag i /\ py_endswith (py "</s>") text = false)
      \/ (m = TextTooShort i (length text) /\ (length text < 50)%nat)
      \/ (m = TextVeryLong i (length text) /\ (2048 < length text)%nat).
Proof.
  unfold completeness_warnings. rewrite !elem_of_app.
  destruct (py_startswith (py "<s>[INST]") text), (py_endswith (py "</s>") text),
    (Nat.ltb_spec (length text) 50), (Nat.ltb_spec 2048 (length text));
    rewrite ?elem_of_nil, ?list_elem_of_singleton; naive_solver lia.
Qed.

Lemma very_long_in_completeness_warnings i text :
  (2048 < length text)%nat ->
  TextVeryLong i (length text) ∈ completeness_warnings i text.
Proof. intros Hlen. apply elem_of_completeness_warnings. naive_solver. Qed.

Lemma elem_of_statistics_warnings m items :
  m ∈ statistics_warnings items
  <-> (m = DatasetSmall (length items) /\ (length items < 1000)%nat)
      \/ (let longest := list_max (map (fun item => length (text_or_empty item)) items) in
          m = SamplesVeryLong longest /\ (2048 < longest)%nat).
Proof.
  unfold statistics_warnings. cbv zeta. rewrite elem_of_app.
  destruct (Nat.ltb_spec (length items) 1000),
    (Nat.ltb_spec 2048 (list_max (map (fun item => length (text_or_empty item)) items)));
    rewrite ?elem_of_nil, ?list_elem_of_singleton; naive_solver lia.
Qed.

Lemma quality_kind_elem m quality :
  Forall quality_kind quality -> m ∈ quality -> quality_kind m.
Proof. intros Hq Hm. rewrite Forall_forall in Hq. by apply Hq. Qed.

End Reports.

(** X19.  If an item of the list is no dictionary, or has a ["text"]
    that is not a string, [validate_dataset] returns [False], and
    [_check_completeness] raises [AttributeError] at the first such item:
    the errors are those of [_check_format] for all items, then those of
    the completeness check for the items before that one, then the
    "failed to load" message; the warnings are those of the completeness
    check for the items before that one, and the quality and statistics
    checks do not run. *)
Theorem validate_dataset_malformed_item (items : list pyobj) (self : validator) :
  Exists (fun item => text_of item = None) items ->
  exists before bad after,
    items = before ++ bad :: after
    /\ Forall well_formed_item before /\ text_of bad = None
    /\ validate_dataset (Ok (PList items)) self
       = (false,
          mk_validator
            (format_errors_from 0 items ++ completeness_errors_from 0 before
               ++ [FailedToLoad AttributeError])
            (completeness_warnings_from 0 before)).
Proof.
  intros (before & bad & after & -> & Hwf & Hbad)%first_without_text.
  exists before, bad, after. split_and!; [done..|].
  unfold validate_dataset, validate_body. unfold v_bind at 1, v_lift at 1.
  assert (obj_truthy (PList (before ++ bad :: after)) = true) as ->
    by (by destruct before).
  cbn [negb]. unfold v_bind at 1.
  rewrite (check_format_run (PList (before ++ bad :: after)) (before ++ bad :: after)
             new_validator eq_refl).
  unfold v_bind at 1. rewrite (check_completeness_raises _ _ _ _ Hwf Hbad).
  cbn [errors warnings new_validator app]. by rewrite <- app_assoc.
Qed.

Lemma validate_dataset_malformed_item_witness :
  Exists (fun item => text_of item = None) dataset_with_a_list
  /\ exists before bad after,
       dataset_with_a_list = before ++ bad :: after
       /\ (validate_dataset (Ok (PList dataset_with_a_list)) new_validator).1 = false
       /\ last (errors (validate_dataset (Ok (PList dataset_with_a_list)) new_validator).2)
          = Some (FailedToLoad AttributeError).
Proof.
  assert (Exists (fun item => text_of item = None) dataset_with_a_list) as Hex.
  { apply Exists_cons_tl, Exists_cons_hd. reflexivity. }
  split; [exact Hex|].
  destruct (validate_dataset_malformed_item dataset_with_a_list new_validator Hex)
    as (before & bad & after & Heq & _ & _ & Hrun).
  exists before, bad, after. rewrite Hrun. cbn [fst snd errors].
  split; [exact Heq|]. split; [reflexivity|].
  rewrite !app_assoc. apply last_snoc.
Defined.

(** X20.  For a non-empty list of dictionaries whose ["text"] is a
    string: the errors are the "missing closing tag" messages for the
    indices of the items whose text lacks ["[/INST]"], and nothing else;
    the "dataset is small" warning is there exactly when the list has
    fewer than 1000 items, and carries their number; and the "some
    samples are very long" warning is there exactly when some item has
    the "text very long" warning. *)
Theorem validate_dataset_reports (items : list pyobj) (self : validator) :
  items <> [] ->
  Forall (fun item => has_str_text item = true) items ->
  let r := validate_dataset (Ok (PList items)) self in
  (forall m, m ∈ errors r.2
             <-> exists i item, items !! i = Some item
                                /\ passing_item item = false
                                /\ m = MissingCloseTag i)
  /\ (forall n, DatasetSmall n ∈ warnings r.2
                <-> n = length items /\ (n < 1000)%nat)
  /\ ((exists longest, SamplesVeryLong longest ∈ warnings r.2)
      <-> exists i len, TextVeryLong i len ∈ warnings r.2).
Proof.
  intros Hne Hstr. cbv zeta. unfold validate_dataset.
  destruct (validate_body_run items new_validator Hne Hstr) as (quality & -> & Hq).
  cbn [fst snd errors warnings new_validator app].
  pose proof (quality_kind_elem) as Hkind.
  split_and!.
  - intros m. unfold completeness_errors_from. rewrite elem_of_messages_from.
    split.
    + intros (j & item & Hj & Hm). exists j, item.
      apply elem_of_completeness_errors in Hm; [naive_solver|].
      rewrite Forall_forall in Hstr. apply Hstr. by eapply list_elem_of_lookup_2.
    + intros (j & item & Hj & Hp & ->). exists j, item. split; [done|].
      apply elem_of_completeness_errors; [|done].
      rewrite Forall_forall in Hstr. apply Hstr. by eapply list_elem_of_lookup_2.
  - intros n. rewrite !elem_of_app. split.
    + intros [Hm|[Hm|Hm]].
      * apply elem_of_messages_from in Hm as (j & item & _ & Hm).
        apply elem_of_completeness_warnings in Hm. naive_solver.
      * by apply (Hkind _ _ Hq) in Hm.
      * apply elem_of_statistics_warnings in Hm. naive_solver.
    + intros [-> Hlt]. right. right. apply elem_of_statistics_warnings. by left.
  - split.
    + intros (longest & Hm). apply elem_of_app in Hm as [Hm|Hm].
      { apply elem_of_messages_from in Hm as (j & item & _ & Hm).
        apply elem_of_completeness_warnings in Hm. naive_solver. }
      apply elem_of_app in Hm as [Hm|Hm]; [by apply (Hkind _ _ Hq) in Hm|].
      apply elem_of_statistics_warnings in Hm as [[? _]|[_ Hlong]]; [done|].
      apply list_max_lt, Exists_exists in Hlong as (len & Hin & Hlen).
      apply list_elem_of_In, in_map_iff in Hin as (item & <- & Hin).
      apply list_elem_of_In, list_elem_of_lookup_1 in Hin as (j & Hj).
      exists j, (length (text_or_empty item)). apply elem_of_app. left.
      apply elem_of_messages_from. exists j, item. split; [done|].
      by apply very_long_in_completeness_warnings.
    + intros (i & len & Hm). apply elem_of_app in Hm as [Hm|Hm].
      2:{ apply elem_of_app in Hm as [Hm|Hm]; [by apply (Hkind _ _ Hq) in Hm|].
          apply elem_of_statistics_warnings in Hm. naive_solver. }
      apply elem_of_messages_from in Hm as (j & item & Hj & Hm).
      apply elem_of_completeness_warnings in Hm as [[? _]|[[? _]|[[? _]|[_ Hlong]]]];
        try done.
      eexists. apply elem_of_app. right. apply elem_of_app. right.
      apply elem_of_statistics_warnings. right. cbv zeta. split; [done|].
      apply list_max_lt, Exists_exists. exists (length (text_or_empty item)).
      split; [|done]. apply list_elem_of_In, in_map_iff. exists item.
      split; [done|]. apply list_elem_of_In. by eapply list_elem_of_lookup_2.
Qed.

Lemma validate_dataset_reports_witness :
  let items := [sample_of_text (py "<s>[INST] x [/INST] y</s>"); sample_of_text (py "no tag")] in
  let r := validate_dataset (Ok (PList items)) new_validator in
  MissingCloseTag 1 ∈ errors r.2 /\ DatasetSmall 2 ∈ warnings r.2.
Proof.
  cbv zeta.
  destruct (validate_dataset_reports
              [sample_of_text (py "<s>[INST] x [/INST] y</s>"); sample_of_text (py "no tag")]
              new_validator)
    as (Herr & Hsmall & _).
  - discriminate.
  - repeat constructor.
  - split.
    + apply Herr. exists 1%nat, (sample_of_text (py "no tag")).
      split; [reflexivity|]. split; [vm_compute; reflexivity | reflexivity].
    + apply Hsmall. split; [reflexivity | simpl; lia].
Defined.

(* ================================================================== *)
(** * Part XIV.  Grouping, splitting, and the builder with the validator *)
(* ================================================================== *)

Section Grouping.

Lemma group_one_groupable g ann :
  groupable ann = true ->
  group_one g ann = Ok (add_buckets g (buckets_of [ann])).
Proof.
  destruct ann as [v|l|d]; try done. destruct g as [g1 g2 g3].
  unfold groupable, group_one, buckets_of, add_buckets, obj_get, has_type.
  cbn [List.filter result_bind user_input_parsing job_matching advice_generation].
  destruct (d !! "type"%string) as [[[| | |t]| |]|]; try done;
    intros _; cbn [default from_option id]; try (by rewrite !app_nil_r).
  destruct (decide (t = py "user_input_parsing")) as [->|H1];
    [|destruct (decide (t = py "job_matching")) as [->|H2];
      [|destruct (decide (t = py "advice_generation")) as [->|H3]]];
    repeat case_bool_decide; try congruence;
    try (exfalso; match goal with H : py _ = py _ |- _ => by vm_compute in H end);
    by rewrite ?app_nil_r.
Qed.

Lemma group_one_raises g ann :
  groupable ann = false ->
  group_one g ann = Raise (if is_dict ann then TypeError else AttributeError).
Proof.
  destruct ann as [v|l|d]; try done.
  unfold groupable, group_one, obj_get. cbn [result_bind is_dict].
  by destruct (d !! "type"%string) as [[[| | |t]| |]|].
Qed.

Lemma buckets_of_cons ann annotations :
  buckets_of (ann :: annotations)
  = add_buckets (buckets_of [ann]) (buckets_of annotations).
Proof.
  unfold buckets_of, add_buckets. cbn [List.filter user_input_parsing job_matching
                                        advice_generation].
  by destruct (has_type (py "user_input_parsing") ann),
    (has_type (py "job_matching") ann), (has_type (py "advice_generation") ann).
Qed.

Lemma add_buckets_assoc g h k :
  add_buckets (add_buckets g h) k = add_buckets g (add_buckets h k).
Proof. unfold add_buckets. cbn. by rewrite !app_assoc. Qed.

Lemma group_annotations_groupable annotations g :
  Forall (fun ann => groupable ann = true) annotations ->
  group_annotations g annotations = Ok (add_buckets g (buckets_of annotations)).
Proof.
  intros Hall. revert g. induction Hall as [|ann annotations Hann _ IH]; intros g.
  - cbn. destruct g. unfold add_buckets. cbn. by rewrite !app_nil_r.
  - cbn [group_annotations]. rewrite (group_one_groupable g ann Hann).
    cbn [result_bind]. by rewrite IH, add_buckets_assoc, <- buckets_of_cons.
Qed.

Lemma group_annotations_raises before bad after g :
  Forall (fun ann => groupable ann = true) before -> groupable bad = false ->
  group_annotations g (before ++ bad :: after)
  = Raise (if is_dict bad then TypeError else AttributeError).
Proof.
  intros Hall Hbad. revert g. induction Hall as [|ann before Hann _ IH]; intros g.
  - cbn [app group_annotations]. by rewrite (group_one_raises g bad Hbad).
  - cbn [app group_annotations]. rewrite (group_one_groupable g ann Hann).
    cbn [result_bind]. apply IH.
Qed.

Lemma first_not_groupable annotations :
  Forall (fun ann => groupable ann = true) annotations
  \/ exists before bad after,
       annotations = before ++ bad :: after
       /\ Forall (fun ann => groupable ann = true) before /\ groupable bad = false.
Proof.
  induction annotations as [|ann annotations IH]; [left; constructor|].
  destruct (groupable ann) eqn:Hann.
  - destruct IH as [IH|(before & bad & after & -> & Hb & Hbad)].
    + left. by constructor.
    + right. exists (ann :: before), bad, after. split_and!; [done | | done].
      by constructor.
  - right. exists [], ann, annotations. split_and!; [done | constructor | done].
Qed.

End Grouping.

Section Pipeline.
Context `{RT : Runtime}.

Lemma sample_shape_texts t sample :
  sample_shape_ok t sample ->
  passing_item sample = true
  /\ py_startswith (py "<s>[INST]") (text_or_empty sample) = true
  /\ py_endswith (py "</s>") (text_or_empty sample) = true.
Proof.
  intros (text & -> & Hstart & Hend & Hclose & _).
  unfold passing_item, text_or_empty, text_of, sample_of_text.
  rewrite lookup_singleton_eq. cbn [default from_option id]. done.
Qed.

End Pipeline.

(** X14.  The grouping loop of [build_from_annotations] either fills
    each of the three buckets with the annotations whose ["type"] is the
    name of the bucket, in the order of the input (an annotation of
    another type, of a type that is not a string, or without a type is
    dropped); or it raises at the first annotation that is no dictionary
    ([AttributeError]) or whose type cannot be hashed ([TypeError]). *)
Theorem group_annotations_spec (annotations : list pyobj) :
  match group_annotations (mk_buckets [] [] []) annotations with
  | Ok g =>
      Forall (fun ann => groupable ann = true) annotations
      /\ g = buckets_of annotations
  | Raise e =>
      exists before bad after,
        annotations = before ++ bad :: after
        /\ Forall (fun ann => groupable ann = true) before
        /\ groupable bad = false
        /\ e = (if is_dict bad then TypeError else AttributeError)
  end.
Proof.
  destruct (first_not_groupable annotations)
    as [Hall|(before & bad & after & -> & Hb & Hbad)].
  - rewrite (group_annotations_groupable _ _ Hall). split; [done|].
    unfold add_buckets. by destruct (buckets_of annotations).
  - rewrite (group_annotations_raises _ _ _ _ Hb Hbad).
    by exists before, bad, after.
Qed.

(** X21.  The samples of [_build_input_parsing_samples] and of
    [_build_advice_samples] pass the validator: for every non-empty
    dataset made of such samples [validate_dataset] returns [True] with
    no error, and with no warning about the opening tag or the end tag. *)
Theorem built_samples_pass_validation `{RT : Runtime}
    (parsing advice parsing_samples advice_samples dataset : list pyobj)
    (self : validator) :
  _build_input_parsing_samples parsing = Ok parsing_samples ->
  _build_advice_samples advice = Ok advice_samples ->
  dataset <> [] ->
  dataset ⊆ parsing_samples ++ advice_samples ->
  let r := validate_dataset (Ok (PList dataset)) self in
  r.1 = true
  /\ errors r.2 = []
  /\ forall i, (NoStartTag i ∉ warnings r.2) /\ (NoEndTag i ∉ warnings r.2).
Proof.
  intros Hp Ha Hne Hsub. cbv zeta.
  assert (forall item, item ∈ dataset -> exists t, sample_shape_ok t item) as Hshape.
  { intros item Hin. apply Hsub, elem_of_app in Hin as [Hin|Hin].
    - exists UserInputParsing. revert item Hin. apply Forall_forall.
      by eapply input_parsing_samples_shape.
    - exists AdviceGeneration. revert item Hin. apply Forall_forall.
      by eapply advice_samples_shape. }
  assert (Forall (fun item => passing_item item = true) dataset) as Hpass.
  { apply Forall_forall. intros item [t Ht]%Hshape.
    by apply (sample_shape_texts t item). }
  pose proof (passing_has_str_text dataset Hpass) as Hstr.
  pose proof (validate_dataset_passing dataset self Hne Hpass) as Htrue.
  split; [exact Htrue|]. clear Htrue. unfold validate_dataset.
  destruct (validate_body_run dataset new_validator Hne Hstr) as (quality & -> & Hq).
  cbn [fst snd errors warnings new_validator app].
  split; [by apply (completeness_errors_nil 0 dataset Hstr)|].
  assert (forall m, (m ∈ completeness_warnings_from 0 dataset
                          ++ quality ++ statistics_warnings dataset) ->
                    (forall i, m <> NoStartTag i) /\ (forall i, m <> NoEndTag i)) as Hnone.
  { intros m. rewrite !elem_of_app. intros [Hm|[Hm|Hm]].
    - apply elem_of_messages_from in Hm as (j & item & Hj & Hm).
      apply list_elem_of_lookup_2 in Hj. destruct (Hshape item Hj) as [t Ht].
      destruct (sample_shape_texts t item Ht) as (_ & Hs & He).
      apply elem_of_completeness_warnings in Hm
        as [[-> Hx]|[[-> Hx]|[[-> _]|[-> _]]]];
        [congruence | congruence | |]; split; intros ?; discriminate.
    - apply (quality_kind_elem _ _ Hq) in Hm.
      destruct m; try done; split; intros ?; discriminate.
    - apply elem_of_statistics_warnings in Hm as [[-> _]|[-> _]];
        split; intros ?; discriminate. }
  intros i. split; intros Hin; destruct (Hnone _ Hin) as [H1 H2];
    [by apply (H1 i) | by apply (H2 i)].
Qed.

Lemma built_samples_pass_validation_witness :
  exists parsing_samples advice_samples,
    @_build_input_parsing_samples sample_runtime sample_annotations_parsing
    = Ok parsing_samples
    /\ @_build_advice_samples sample_runtime [sample_advice] = Ok advice_samples
    /\ (validate_dataset (Ok (PList (advice_samples ++ parsing_samples)))
          new_validator).1 = true.
Proof.
  assert (exists samples,
             @_build_input_parsing_samples sample_runtime sample_annotations_parsing
             = Ok samples) as [s1 Hs1].
  { vm_compute. eexists. reflexivity. }
  assert (exists samples,
             @_build_advice_samples sample_runtime [sample_advice] = Ok samples)
    as [s2 Hs2].
  { vm_compute. eexists. reflexivity. }
  exists s1, s2. split; [exact Hs1|]. split; [exact Hs2|].
  destruct (@built_samples_pass_validation sample_runtime _ _ s1 s2 (s2 ++ s1)
              new_validator Hs1 Hs2) as [Htrue _].
  - destruct s2 as [|x s2]; [vm_compute in Hs2; discriminate | discriminate].
  - intros x. rewrite !elem_of_app. tauto.
  - exact Htrue.
Defined.

Local Close Scope N_scope.
Local Open Scope Q_scope.



Local Close Scope Q_scope.
Local Open Scope N_scope.

(* ================================================================== *)
(** * Part XV.  The crawlers                                           *)
(* ================================================================== *)

Section Advice.

Lemma advice_step_filters a line :
  advice_step a line = add_advice a (advice_filters [py_strip line]).
Proof.
  destruct a as [a1 a2 a3 a4].
  unfold advice_step, add_advice, advice_filters, filed, advice_kind_of.
  cbn [List.filter a_resume a_interview a_strategy a_skills].
  set (l := py_strip line).
  assert ((length l =? 0)%nat || (length l <? 10)%nat = (length l <? 10)%nat) as ->.
  { destruct (Nat.eqb_spec (length l) 0) as [->|]; [done|]. done. }
  destruct (length l <? 10)%nat.
  { repeat case_bool_decide; try done. by rewrite !app_nil_r. }
  unfold advice_kinds. cbn [List.find].
  destruct (any_in (advice_keywords Resume) l);
    [|destruct (any_in (advice_keywords Interview) l);
      [|destruct (any_in (advice_keywords Strategy) l);
        [|destruct (any_in (advice_keywords Skills) l)]]];
    repeat case_bool_decide; try done; by rewrite ?app_nil_r.
Qed.

Lemma advice_filters_cons line lines :
  advice_filters (line :: lines)
  = add_advice (advice_filters [line]) (advice_filters lines).
Proof.
  unfold advice_filters, add_advice.
  cbn [List.filter a_resume a_interview a_strategy a_skills].
  by destruct (filed Resume line), (filed Interview line), (filed Strategy line),
    (filed Skills line).
Qed.

Lemma add_advice_assoc a b c :
  add_advice (add_advice a b) c = add_advice a (add_advice b c).
Proof. unfold add_advice. cbn. by rewrite !app_assoc. Qed.

Lemma advice_loop_filters lines a :
  foldl advice_step a lines = add_advice a (advice_filters (map py_strip lines)).
Proof.
  revert a. induction lines as [|line lines IH]; intros a.
  - destruct a. unfold add_advice. cbn. by rewrite !app_nil_r.
  - cbn [foldl map]. rewrite IH, advice_step_filters, add_advice_assoc.
    by rewrite <- advice_filters_cons.
Qed.

Lemma advice_of_filters k lines :
  advice_of (advice_filters lines) k = List.filter (filed k) lines.
Proof. by destruct k. Qed.

End Advice.

Section Retries.
Context {R : Type} (net : nat -> outcome R) (max_retries : Z).

Lemma events_between_one a : events_between a a = attempt_events a.
Proof.
  unfold events_between. replace (S a - a)%nat with 1%nat by lia.
  cbn. by rewrite app_nil_r.
Qed.

Lemma events_between_cons a k :
  (a < k)%nat -> events_between a k = attempt_events a ++ events_between (S a) k.
Proof.
  intros Hlt. unfold events_between.
  replace (S k - a)%nat with (S (S k - S a))%nat by lia. done.
Qed.

Lemma request_loop_log attempt log :
  (if (0 <? attempt)%nat then log ++ [Sleep] else log) ++ [Request]
  = log ++ attempt_events attempt.
Proof.
  unfold attempt_events. destruct (0 <? attempt)%nat; [|done].
  by rewrite <- app_assoc.
Qed.

Lemma request_loop_spec len a log0 :
  (a + len)%nat = Z.to_nat max_retries ->
  match request_loop net max_retries (seq a len) log0 with
  | (log, Ok (Some r)) =>
      exists k, (a <= k < a + len)%nat /\ net k = Responded r
                /\ (forall j, (a <= j < k)%nat -> net j = RequestFailed)
                /\ log = log0 ++ events_between a k ++ [Sleep]
  | (log, Ok None) =>
      (forall j, (a <= j < a + len)%nat -> net j = RequestFailed)
      /\ log = log0 ++ (if len is O then [] else events_between a (a + len - 1))
  | (log, Raise e) =>
      exists k, (a <= k < a + len)%nat /\ net k = OtherError e
                /\ (forall j, (a <= j < k)%nat -> net j = RequestFailed)
                /\ log = log0 ++ events_between a k
  end.
Proof.
  revert a log0. induction len as [|len IH]; intros a log0 Hsum.
  - cbn. split; [lia | by rewrite app_nil_r].
  - cbn [seq request_loop]. rewrite request_loop_log.
    destruct (net a) as [r| |e] eqn:Hnet.
    + exists a. rewrite events_between_one, <- app_assoc.
      split_and!; first [done | lia | intros; lia].
    + destruct (Z.eqb_spec (Z.of_nat a) (max_retries - 1)) as [Hlast|Hmore].
      * assert (len = 0)%nat as -> by lia. split.
        -- intros j Hj. by replace j with a by lia.
        -- replace (a + 1 - 1)%nat with a by lia. by rewrite events_between_one.
      * specialize (IH (S a) (log0 ++ attempt_events a) ltac:(lia)).
        destruct (request_loop net max_retries (seq (S a) len)
                    (log0 ++ attempt_events a)) as [log [[r|]|e]].
        -- destruct IH as (k & Hk & Hr & Hfail & ->). exists k.
           split_and!; [lia | lia | done | |].
           ++ intros j Hj. destruct (decide (j = a)) as [->|]; [done|].
              apply Hfail. lia.
           ++ rewrite (events_between_cons a k) by lia. by rewrite <- !app_assoc.
        -- destruct IH as (Hfail & ->). split.
           ++ intros j Hj. destruct (decide (j = a)) as [->|]; [done|].
              apply Hfail. lia.
           ++ destruct len as [|len]; [lia|].
              rewrite (events_between_cons a (a + S (S len) - 1)) by lia.
              replace (S a + S len - 1)%nat with (a + S (S len) - 1)%nat by lia.
              by rewrite <- !app_assoc.
        -- destruct IH as (k & Hk & Hr & Hfail & ->). exists k.
           split_and!; [lia | lia | done | |].
           ++ intros j Hj. destruct (decide (j = a)) as [->|]; [done|].
              apply Hfail. lia.
           ++ rewrite (events_between_cons a k) by lia. by rewrite <- !app_assoc.
    + exists a. rewrite events_between_one.
      split_and!; first [done | lia | intros; lia].
Qed.

End Retries.

(** X22.  [extract_job_advice] files each stripped line of at least
    ten characters under the first of the four keys one of whose keywords
    it holds: the list of a key is the stripped lines filed under it, in
    the order of the text.  So no line is in the lists of two keys, and
    a line in the list of a key has ten characters or more and holds a
    keyword of that key. *)
Theorem extract_job_advice_filters (content : pystr) :
  let r := extract_job_advice content in
  let lines := map py_strip (py_split_sep [0x0A] content) in
  (forall k, advice_of r k
             = List.filter (fun line => bool_decide (advice_kind_of line = Some k)) lines)
  /\ (forall k1 k2 line,
        line ∈ advice_of r k1 -> line ∈ advice_of r k2 -> k1 = k2)
  /\ (forall k line,
        line ∈ advice_of r k ->
        (10 <= length line)%nat /\ any_in (advice_keywords k) line = true).
Proof.
  cbv zeta. unfold extract_job_advice. cbv zeta. rewrite advice_loop_filters.
  assert (forall k,
             advice_of (add_advice (mk_advice [] [] [] [])
                          (advice_filters (map py_strip (py_split_sep [0x0A] content)))) k
             = List.filter (filed k) (map py_strip (py_split_sep [0x0A] content)))
    as Hfilter.
  { intros k. rewrite <- advice_of_filters. by destruct k. }
  split_and!.
  - exact Hfilter.
  - intros k1 k2 line. rewrite !Hfilter, !list_elem_of_In, !filter_In.
    unfold filed. intros [_ H1%bool_decide_eq_true] [_ H2%bool_decide_eq_true].
    congruence.
  - intros k line. rewrite Hfilter, list_elem_of_In, filter_In.
    unfold filed, advice_kind_of. intros [_ Hk%bool_decide_eq_true].
    destruct (Nat.ltb_spec (length line) 10) as [|Hlen]; [done|].
    split; [done|]. by apply find_some in Hk as [_ Hk].
Qed.

(** X23.  The retry loop of [safe_request], with [n] the number of
    attempts [max_retries] allows (none when it is zero or negative):
    it returns a response exactly from the first attempt that does not
    fail, after one request per attempt so far, a sleep before each but
    the first, and one more sleep; it returns [None] when all [n]
    attempts have raised a [RequestException], after [n] requests and no
    sleep behind the last; any other exception leaves the loop at once. *)
Theorem safe_request_spec {R : Type} (net : nat -> outcome R) (max_retries : Z) :
  let n := Z.to_nat max_retries in
  match safe_request net max_retries with
  | (log, Ok (Some r)) =>
      exists k, (k < n)%nat /\ net k = Responded r
                /\ (forall j, (j < k)%nat -> net j = RequestFailed)
                /\ log = events_between 0 k ++ [Sleep]
  | (log, Ok None) =>
      (forall j, (j < n)%nat -> net j = RequestFailed)
      /\ log = (if n is O then [] else events_between 0 (n - 1))
  | (log, Raise e) =>
      exists k, (k < n)%nat /\ net k = OtherError e
                /\ (forall j, (j < k)%nat -> net j = RequestFailed)
                /\ log = events_between 0 k
  end.
Proof.
  cbv zeta. unfold safe_request.
  pose proof (request_loop_spec net max_retries (Z.to_nat max_retries) 0 [] eq_refl)
    as Hspec.
  destruct (request_loop net max_retries (seq 0 (Z.to_nat max_retries)) [])
    as [log [[r|]|e]].
  - destruct Hspec as (k & Hk & Hr & Hfail & ->). exists k.
    split_and!; [lia | done | | done]. intros j Hj. apply Hfail. lia.
  - destruct Hspec as (Hfail & ->). split.
    + intros j Hj. apply Hfail. lia.
    + cbn [app Nat.add]. done.
  - destruct Hspec as (k & Hk & Hr & Hfail & ->). exists k.
    split_and!; [lia | done | | done]. intros j Hj. apply Hfail. lia.
Qed.

Example safe_request_third_time_lucky :
  safe_request third_time_lucky 3
  = ([Request; Sleep; Request; Sleep; Request; Sleep], Ok (Some 2%nat))
  /\ safe_request third_time_lucky 2 = ([Request; Sleep; Request], Ok None)
  /\ safe_request third_time_lucky 0 = ([], Ok None).
Proof. vm_compute. auto. Qed.
